(** * Metadata resolution, type-check diagnostics and the initial router state

    A shallow embedding of three fragments of the framework:
    - [resolve-metadata.ts]: [merge], [getDefinedMetadata],
      [collectStaticFsBasedIcons], [resolveStaticMetadata], [collectMetadata]
      and [accumulateMetadata];
    - the TypeScript diagnostic formatter: [getFormattedDiagnostic] and its
      two message rewriters;
    - [createInitialRouterState].

    JavaScript data is modelled by the type [value]; plain objects are
    association lists in insertion order (the order [for ... in] and object
    spread follow).  A promise is modelled by the way it settles. *)

From Stdlib Require Import ZArith String Ascii List Bool Lia DecimalString.
From stdpp Require Import base option list strings gmap.

Set Warnings "-register-all".
Local Open Scope string_scope.
Local Open Scope list_scope.

(** ** JavaScript values *)

Module Js.

(** Numbers are the integral ones; fractional numbers, [NaN] and the
    infinities do not occur in the code modelled here. *)
Inductive value : Type :=
| VUndefined
| VNull
| VBool (b : bool)
| VNum (n : Z)
| VStr (s : string)
| VArr (items : list value)
| VObj (props : list (string * value)).

(** A plain object: its own enumerable properties in insertion order.  When
    a key occurs twice the first binding is the property.  (JavaScript
    enumerates integer-like keys before the others; the code modelled here
    does nothing for such keys, so their place is not modelled.) *)
Definition Obj : Type := list (string * value).

(** ToBoolean. *)
Definition truthy (v : value) : bool :=
  match v with
  | VUndefined | VNull => false
  | VBool b => b
  | VNum n => negb (n =? 0)%Z
  | VStr s => negb (String.eqb s EmptyString)
  | VArr _ | VObj _ => true
  end.

(** [a || b] *)
Definition js_or (a b : value) : value := if truthy a then a else b.

(** [o[k]] on a plain object; [undefined] when [k] is not a property. *)
Fixpoint obj_get (o : Obj) (k : string) : value :=
  match o with
  | [] => VUndefined
  | (k', v) :: rest => if String.eqb k' k then v else obj_get rest k
  end.

(** [k in o] for own properties. *)
Fixpoint obj_has (o : Obj) (k : string) : bool :=
  match o with
  | [] => false
  | (k', _) :: rest => if String.eqb k' k then true else obj_has rest k
  end.

(** [o[k] = v]: an existing property keeps its place, a new one is added
    last. *)
Fixpoint obj_set (o : Obj) (k : string) (v : value) : Obj :=
  match o with
  | [] => [(k, v)]
  | (k', v') :: rest =>
      if String.eqb k' k then (k', v) :: rest else (k', v') :: obj_set rest k v
  end.

(** The properties of [o] without shadowed bindings. *)
Fixpoint obj_entries_from (seen : list string) (o : Obj) : Obj :=
  match o with
  | [] => []
  | (k, v) :: rest =>
      if existsb (String.eqb k) seen then obj_entries_from seen rest
      else (k, v) :: obj_entries_from (k :: seen) rest
  end.

Definition obj_entries (o : Obj) : Obj := obj_entries_from [] o.

(** The keys [for (const key in o)] visits, in order. *)
Definition obj_keys (o : Obj) : list string := map fst (obj_entries o).

(** [n.toString()] for an integral number. *)
Definition number_to_string (n : Z) : string :=
  NilEmpty.string_of_int (Z.to_int n).

Definition index_to_string (i : nat) : string :=
  NilEmpty.string_of_uint (Nat.to_uint i).

Fixpoint indexed {A} (f : A -> value) (i : nat) (l : list A) : Obj :=
  match l with
  | [] => []
  | x :: rest => (index_to_string i, f x) :: indexed f (S i) rest
  end.

Definition char_value (c : ascii) : value := VStr (String c EmptyString).

(** The own enumerable properties that [{...v}] and [Object.assign] copy
    from [v]: those of an object, the indexed elements of an array or of a
    string, none for the other primitives. *)
Definition own_props (v : value) : Obj :=
  match v with
  | VObj o => obj_entries o
  | VArr l => indexed (fun x => x) 0 l
  | VStr s => indexed char_value 0 (list_ascii_of_string s)
  | _ => []
  end.

(** Copy the properties [src] into [dst], in order. *)
Definition obj_assign (dst src : Obj) : Obj :=
  fold_left (fun o kv => obj_set o (fst kv) (snd kv)) src dst.

(** [{ ...a, ...b }] *)
Definition spread2 (a b : value) : Obj :=
  obj_assign (obj_assign [] (own_props a)) (own_props b).

(** [{ ...a }] *)
Definition spread1 (a : value) : Obj := obj_assign [] (own_props a).

(** [Object.assign({}, a, b)] *)
Definition object_assign_empty (a b : value) : Obj := spread2 a b.

(** ToString, as a template literal applies it.  Arrays are joined with a
    comma, [null] and [undefined] elements printing as nothing; a plain
    object prints as [[object Object]]. *)
Fixpoint to_string (v : value) : string :=
  match v with
  | VUndefined => "undefined"
  | VNull => "null"
  | VBool true => "true"
  | VBool false => "false"
  | VNum n => number_to_string n
  | VStr s => s
  | VArr l =>
      let element (x : value) : string :=
        match x with
        | VUndefined | VNull => EmptyString
        | _ => to_string x
        end in
      (fix join (l : list value) : string :=
         match l with
         | [] => EmptyString
         | x :: rest =>
             match rest with
             | [] => element x
             | _ :: _ => element x +:+ "," +:+ join rest
             end
         end) l
  | VObj _ => "[object Object]"
  end.

End Js.

(** ** Completions and promises *)

Module Async.
Import Js.

(** What a [throw] carries. *)
Inductive JsError : Type :=
| MkError (message : string)
| MkTypeError (message : string)
| ThrownValue (v : value).

(** The outcome of synchronous code. *)
Inductive Completion (A : Type) : Type :=
| Normal (a : A)
| Throw (e : JsError).
Arguments Normal {A} a.
Arguments Throw {A} e.

(** A promise, by the way it settles: fulfilled with a value, rejected with
    an error, or never settled. *)
Inductive Promise (A : Type) : Type :=
| Fulfilled (a : A)
| Rejected (e : JsError)
| Pending.
Arguments Fulfilled {A} a.
Arguments Rejected {A} e.
Arguments Pending {A}.

(** What a function typed [T | Promise<T>] hands back. *)
Inductive Returned (A : Type) : Type :=
| RetValue (a : A)
| RetPromise (p : Promise A).
Arguments RetValue {A} a.
Arguments RetPromise {A} p.

(** [Promise.resolve(x)]: a promise is handed on, a value is wrapped. *)
Definition Promise_resolve {A} (x : Returned A) : Promise A :=
  match x with
  | RetValue a => Fulfilled a
  | RetPromise p => p
  end.

(** [p.then(cb)]: [cb] runs once [p] is fulfilled, and the promise it
    returns is adopted. *)
Definition Promise_then {A B} (p : Promise A) (cb : A -> Returned B)
  : Promise B :=
  match p with
  | Fulfilled a => Promise_resolve (cb a)
  | Rejected e => Rejected e
  | Pending => Pending
  end.

(** The promise an [async] function returns when its body, run up to its
    final [return await p], completes with [c]. *)
Definition async_return {A} (c : Completion (Promise A)) : Promise A :=
  match c with
  | Normal p => p
  | Throw e => Rejected e
  end.

Definition throws {A} (p : Promise A) : Prop := exists e, p = Rejected e.

End Async.

(** ** resolve-metadata.ts *)

Module Metadata.
Import Js Async.

(** The third argument of [merge]. *)
Record TemplateStrings : Type := {
  tpl_title : value;
  tpl_openGraph : value;
  tpl_twitter : value
}.

(** The argument of a call: a plain value or the parent promise. *)
Inductive Arg : Type :=
| ArgValue (v : value)
| ArgPromise (p : Promise Obj).

(** A property of a module object ([mod : any]): a value or a function,
    which has a source text and a behaviour on the arguments of a call. *)
Inductive ModuleProp : Type :=
| PropValue (v : value)
| PropFunction (text : string)
    (f : list Arg -> Completion (Returned value)).

Definition Module : Type := list (string * ModuleProp).

(** The imports of resolve-metadata.ts whose code is elsewhere.  Each
    resolver is a function of the values it is given.  [mergeTitle] updates
    the object it is handed; it is modelled by the contents of that object
    after the call. *)
Class Resolvers : Type := {
  createDefaultMetadata : Obj;
  mergeTitle : Obj -> value -> Obj;
  resolveOpenGraph : value -> value -> value;
  resolveTwitter : value -> value -> value;
  resolveAlternates : value -> value -> value;
  resolveAppleWebApp : value -> value;
  resolveAppLinks : value -> value;
  resolveRobots : value -> value;
  resolveVerification : value -> value;
  resolveViewport : value -> value;
  resolveIcons : value -> value;
  resolveAsArrayOrUndefined : value -> value;
  isClientReference : Module -> bool
}.

(** The arms of the [switch (key)] of [merge]. *)
Inductive MergeCase : Type :=
| CaseTitle | CaseAlternates | CaseOpenGraph | CaseTwitter
| CaseVerification | CaseViewport | CaseIcons | CaseAppleWebApp
| CaseAppLinks | CaseRobots
| CaseArrayField      (* archives, assets, bookmarks, keywords, authors *)
| CaseDirectField     (* the fields assigned directly, falling back to null *)
| CaseOther | CaseMetadataBase
| CaseDefault.

Definition switch_table : list (string * MergeCase) :=
  [ ("title", CaseTitle);
    ("alternates", CaseAlternates);
    ("openGraph", CaseOpenGraph);
    ("twitter", CaseTwitter);
    ("verification", CaseVerification);
    ("viewport", CaseViewport);
    ("icons", CaseIcons);
    ("appleWebApp", CaseAppleWebApp);
    ("appLinks", CaseAppLinks);
    ("robots", CaseRobots);
    ("archives", CaseArrayField);
    ("assets", CaseArrayField);
    ("bookmarks", CaseArrayField);
    ("keywords", CaseArrayField);
    ("authors", CaseArrayField);
    ("applicationName", CaseDirectField);
    ("description", CaseDirectField);
    ("generator", CaseDirectField);
    ("themeColor", CaseDirectField);
    ("creator", CaseDirectField);
    ("publisher", CaseDirectField);
    ("category", CaseDirectField);
    ("classification", CaseDirectField);
    ("referrer", CaseDirectField);
    ("colorScheme", CaseDirectField);
    ("itunes", CaseDirectField);
    ("formatDetection", CaseDirectField);
    ("other", CaseOther);
    ("metadataBase", CaseMetadataBase) ].

(** The keys that have a [case] label. *)
Definition known_keys : list string := map fst switch_table.

Definition switch_case (key : string) : MergeCase :=
  match find (fun e => String.eqb (fst e) key) switch_table with
  | Some (_, c) => c
  | None => CaseDefault
  end.

(** [v.k] for a key that is not inherited from a prototype. *)
Definition member (v : value) (k : string) : value :=
  match v with
  | VObj o => obj_get o k
  | VArr l =>
      if String.eqb k "length" then VNum (Z.of_nat (length l))
      else obj_get (own_props v) k
  | VStr s =>
      if String.eqb k "length" then VNum (Z.of_nat (String.length s))
      else obj_get (own_props v) k
  | _ => VUndefined
  end.

(** [v?.k] *)
Definition opt_member (v : value) (k : string) : value :=
  match v with
  | VUndefined | VNull => VUndefined
  | _ => member v k
  end.

Section WithResolvers.
Context {R : Resolvers}.

(** [mergeTitle(v, template)] for the object held in a field. *)
Definition mergeTitle_nested (v template : value) : value :=
  match v with
  | VObj o => VObj (mergeTitle o template)
  | _ => v
  end.

(** One turn of the [for (const key_ in source)] loop of [merge]. *)
Definition merge_key (source : Obj) (metadataBase : value)
    (templateStrings : TemplateStrings) (target : Obj) (key : string) : Obj :=
  match switch_case key with
  | CaseTitle =>
      if truthy (obj_get source "title") then
        mergeTitle (obj_set target "title" (obj_get source "title"))
          (tpl_title templateStrings)
      else target
  | CaseAlternates =>
      obj_set target "alternates"
        (resolveAlternates (obj_get source "alternates") metadataBase)
  | CaseOpenGraph =>
      let target :=
        obj_set target "openGraph"
          (resolveOpenGraph (obj_get source "openGraph") metadataBase) in
      if truthy (obj_get target "openGraph") then
        obj_set target "openGraph"
          (mergeTitle_nested (obj_get target "openGraph")
             (tpl_openGraph templateStrings))
      else target
  | CaseTwitter =>
      let target :=
        obj_set target "twitter"
          (resolveTwitter (obj_get source "twitter") metadataBase) in
      if truthy (obj_get target "twitter") then
        obj_set target "twitter"
          (mergeTitle_nested (obj_get target "twitter")
             (tpl_twitter templateStrings))
      else target
  | CaseVerification =>
      obj_set target "verification"
        (resolveVerification (obj_get source "verification"))
  | CaseViewport =>
      obj_set target "viewport" (resolveViewport (obj_get source "viewport"))
  | CaseIcons =>
      obj_set target "icons" (resolveIcons (obj_get source "icons"))
  | CaseAppleWebApp =>
      obj_set target "appleWebApp"
        (resolveAppleWebApp (obj_get source "appleWebApp"))
  | CaseAppLinks =>
      obj_set target "appLinks" (resolveAppLinks (obj_get source "appLinks"))
  | CaseRobots =>
      obj_set target "robots" (resolveRobots (obj_get source "robots"))
  | CaseArrayField =>
      obj_set target key
        (js_or (resolveAsArrayOrUndefined (obj_get source key)) VNull)
  | CaseDirectField =>
      obj_set target key (js_or (obj_get source key) VNull)
  | CaseOther =>
      obj_set target "other"
        (VObj (object_assign_empty (obj_get target "other")
                 (obj_get source "other")))
  | CaseMetadataBase => obj_set target "metadataBase" metadataBase
  | CaseDefault => target
  end.

(** [merge(target, source, templateStrings)]; the result is the contents of
    [target] after the call. *)
Definition merge (target source : Obj) (templateStrings : TemplateStrings)
  : Obj :=
  let metadataBase := js_or (obj_get source "metadataBase") VNull in
  fold_left (merge_key source metadataBase templateStrings)
    (obj_keys source) target.

(** [MetadataResolver]: called with the parent promise, it returns metadata
    or a promise of it, or throws. *)
Definition MetadataResolver : Type :=
  Promise Obj -> Completion (Returned value).

(** [Metadata | MetadataResolver | null] *)
Inductive MetadataExport : Type :=
| ExportValue (v : value)
| ExportFunction (f : MetadataResolver).

(** [MetadataItems]: pairs [[metadataExport, staticFilesMetadata]]. *)
Definition MetadataItems : Type := list (MetadataExport * value).

Definition mod_get (module : Module) (k : string) : ModuleProp :=
  match find (fun e => String.eqb (fst e) k) module with
  | Some (_, p) => p
  | None => PropValue VUndefined
  end.

Definition prop_truthy (p : ModuleProp) : bool :=
  match p with
  | PropValue v => truthy v
  | PropFunction _ _ => true
  end.

Definition prop_to_string (p : ModuleProp) : string :=
  match p with
  | PropValue v => to_string v
  | PropFunction text _ => text
  end.

(** [p(args)] *)
Definition prop_call (p : ModuleProp) (args : list Arg)
  : Completion (Returned value) :=
  match p with
  | PropFunction _ f => f args
  | PropValue _ => Throw (MkTypeError "mod.generateMetadata is not a function")
  end.

Definition both_exports_message (path : ModuleProp) : string :=
  prop_to_string path +:+
  " is exporting both metadata and generateMetadata which is not supported. If all of the metadata you want to associate to this page/layout is static use the metadata export, otherwise use generateMetadata. File: "
  +:+ prop_to_string path.

(** [getDefinedMetadata(mod, props)], an [async] function ([module] is its
    [mod]): a [throw]
    rejects the promise it returns. *)
Definition getDefinedMetadata (module : Module) (props : value)
  : Promise MetadataExport :=
  if isClientReference module then Fulfilled (ExportValue VNull)
  else if prop_truthy (mod_get module "metadata")
          && prop_truthy (mod_get module "generateMetadata") then
    Rejected (MkError (both_exports_message (mod_get module "path")))
  else
    Fulfilled
      (if prop_truthy (mod_get module "generateMetadata") then
         ExportFunction (fun parent =>
           prop_call (mod_get module "generateMetadata")
             [ArgValue props; ArgPromise parent])
       else
         match mod_get module "metadata" with
         | PropFunction _ f => ExportFunction (fun parent => f [ArgPromise parent])
         | PropValue v => ExportValue (js_or v VNull)
         end).

(** The [templateStrings] argument that [accumulateMetadata] builds from
    the metadata resolved so far. *)
Definition stashed_templates (resolved : Obj) : TemplateStrings :=
  {| tpl_title :=
       js_or (opt_member (obj_get resolved "title") "template") VNull;
     tpl_openGraph :=
       js_or (opt_member (opt_member (obj_get resolved "openGraph") "title")
                "template") VNull;
     tpl_twitter :=
       js_or (opt_member (opt_member (obj_get resolved "twitter") "title")
                "template") VNull |}.

(** The body of the innermost [then] callback of [accumulateMetadata]: the
    contents of [resolved] when it is returned.  [resolved] is the one
    object [createDefaultMetadata()] made: [merge] updates it in place and
    every promise of the chain is fulfilled with it.  A promise of it is
    modelled by its contents when the promise is fulfilled; no merge of a
    later layer can have happened by then, since each waits for the promise
    of the layer before it. *)
Definition merge_layer (resolved : Obj)
    (exportedMetadata staticFilesMetadata : value) : Obj :=
  let metadata := js_or exportedMetadata staticFilesMetadata in
  if truthy metadata then
    merge resolved (spread2 metadata staticFilesMetadata)
      (stashed_templates resolved)
  else resolved.

(** The promise assigned to [parentPromise] in one turn of the loop. *)
Definition chain_layer (parentPromise : Promise Obj)
    (layerMetadataPromise : Promise value) (staticFilesMetadata : value)
  : Promise Obj :=
  Promise_then parentPromise (fun resolved =>
    RetPromise
      (Promise_then layerMetadataPromise (fun exportedMetadata =>
         RetValue (merge_layer resolved exportedMetadata staticFilesMetadata)))).

(** The [for (const item of metadataItems)] loop, from the value
    [parentPromise] has when a turn starts. *)
Fixpoint accumulate_loop (metadataItems : MetadataItems)
    (parentPromise : Promise Obj) : Completion (Promise Obj) :=
  match metadataItems with
  | [] => Normal parentPromise
  | (metadataExport, staticFilesMetadata) :: rest =>
      match
        match metadataExport with
        | ExportFunction f => f parentPromise
        | ExportValue v => Normal (RetValue v)
        end
      with
      | Throw e => Throw e
      | Normal layer =>
          let layerMetadataPromise := Promise_resolve layer in
          accumulate_loop rest
            (chain_layer parentPromise layerMetadataPromise
               staticFilesMetadata)
      end
  end.

Definition accumulateMetadata (metadataItems : MetadataItems) : Promise Obj :=
  let resolvedMetadata := createDefaultMetadata in
  async_return
    (accumulate_loop metadataItems
       (Promise_resolve (RetValue resolvedMetadata))).

End WithResolvers.

End Metadata.

(** ** Strings and regular expressions *)

Module Text.

(** The double quote and the line feed. *)
Definition dq : string := String (ascii_of_nat 34) EmptyString.
Definition nl : string := String (ascii_of_nat 10) EmptyString.

(** [s] put between double quotes. *)
Definition quoted (s : string) : string := dq +:+ s +:+ dq.

(** The characters [.] does not match. *)
Definition is_line_terminator (c : ascii) : bool :=
  let n := nat_of_ascii c in Nat.eqb n 10 || Nat.eqb n 13.

(** The characters [trim] removes. *)
Definition is_white_space (c : ascii) : bool :=
  let n := nat_of_ascii c in
  (Nat.leb 9 n && Nat.leb n 13) || Nat.eqb n 32 || Nat.eqb n 160.

Fixpoint trim_start (s : string) : string :=
  match s with
  | EmptyString => EmptyString
  | String c rest => if is_white_space c then trim_start rest else s
  end.

(** [s] without its trailing white space. *)
Fixpoint trim_end (s : string) : string :=
  match s with
  | EmptyString => EmptyString
  | String c rest =>
      match trim_end rest with
      | EmptyString => if is_white_space c then EmptyString
                       else String c EmptyString
      | kept => String c kept
      end
  end.

(** [s.trim()] *)
Definition trim (s : string) : string := trim_end (trim_start s).

(** [s.startsWith(p)] *)
Definition startsWith (s p : string) : bool := String.prefix p s.

(** [s] after the prefix [p], when it starts with [p]. *)
Fixpoint strip_prefix (p s : string) : option string :=
  match p with
  | EmptyString => Some s
  | String a p' =>
      match s with
      | EmptyString => None
      | String b s' => if Ascii.eqb a b then strip_prefix p' s' else None
      end
  end.

(** [' '.repeat(n)] *)
Fixpoint spaces (n : nat) : string :=
  match n with
  | O => EmptyString
  | S n' => String " "%char (spaces n')
  end.

(** [s.replace(/\\/g, '/')] *)
Fixpoint backslashes_to_slashes (s : string) : string :=
  match s with
  | EmptyString => EmptyString
  | String c rest =>
      String (if Ascii.eqb c (ascii_of_nat 92) then "/"%char else c)
        (backslashes_to_slashes rest)
  end.

(** [s.replace(pat, by)] for a string pattern: the first occurrence only. *)
Fixpoint replace_first (pat by_ s : string) : string :=
  match strip_prefix pat s with
  | Some rest => by_ +:+ rest
  | None =>
      match s with
      | EmptyString => EmptyString
      | String c rest => String c (replace_first pat by_ rest)
      end
  end.

(** The regular expressions of the formatter: literal text, [.], a greedy
    [.+], capture groups (numbered as JavaScript numbers them), sequence,
    alternation and the anchor [^]. *)
Inductive regex : Type :=
| Lit (s : string)
| Dot
| DotPlus
| Group (n : nat) (r : regex)
| Seq (r1 r2 : regex)
| Alt (r1 r2 : regex)
| Bol.

(** The captures of a match, latest first. *)
Definition Captures : Type := list (nat * string).

(** The suffixes left by [.+], the longest run first. *)
Fixpoint dot_plus (s : string) : list string :=
  match s with
  | EmptyString => []
  | String c rest =>
      if is_line_terminator c then [] else dot_plus rest ++ [rest]
  end.

(** The text between the position [s] and the later position [rest]. *)
Definition consumed (s rest : string) : string :=
  String.substring 0 (String.length s - String.length rest) s.

(** Every way [r] matches at the position where [s] remains of an input of
    [total] characters, in the order a backtracking matcher tries them: the
    text left and the captures. *)
Fixpoint matches (total : nat) (r : regex) (s : string) (caps : Captures)
  : list (string * Captures) :=
  match r with
  | Lit l =>
      match strip_prefix l s with
      | Some rest => [(rest, caps)]
      | None => []
      end
  | Dot =>
      match s with
      | EmptyString => []
      | String c rest =>
          if is_line_terminator c then [] else [(rest, caps)]
      end
  | DotPlus => map (fun rest => (rest, caps)) (dot_plus s)
  | Group n r1 =>
      map (fun m => (fst m, (n, consumed s (fst m)) :: snd m))
        (matches total r1 s caps)
  | Seq r1 r2 =>
      flat_map (fun m => matches total r2 (fst m) (snd m))
        (matches total r1 s caps)
  | Alt r1 r2 => matches total r1 s caps ++ matches total r2 s caps
  | Bol => if Nat.eqb (String.length s) total then [(s, caps)] else []
  end.

(** What [str.match(re)] returns when it is not [null]: the matched text
    and the captures. *)
Record MatchResult : Type := {
  matched : string;
  captures : Captures
}.

(** The first match from the leftmost position that has one. *)
Fixpoint search (total : nat) (r : regex) (s : string) : option MatchResult :=
  match matches total r s [] with
  | (rest, caps) :: _ =>
      Some {| matched := consumed s rest; captures := caps |}
  | [] =>
      match s with
      | EmptyString => None
      | String _ s' => search total r s'
      end
  end.

(** [str.match(re)] for a pattern without the [g] flag. *)
Definition str_match (str : string) (re : regex) : option MatchResult :=
  search (String.length str) re str.

(** [re.test(str)] *)
Definition re_test (re : regex) (str : string) : bool :=
  match str_match str re with Some _ => true | None => false end.

(** [m[n]] for [n >= 1]: the text of group [n], [undefined] ([None]) when
    the group took no part in the match. *)
Definition group (m : MatchResult) (n : nat) : option string :=
  match find (fun e => Nat.eqb (fst e) n) (captures m) with
  | Some (_, s) => Some s
  | None => None
  end.

(** A value [string | undefined] inside a template literal. *)
Definition template_of (x : option string) : string :=
  match x with
  | Some s => s
  | None => "undefined"
  end.

(** [l] as one sequence. *)
Fixpoint seq_of (l : list regex) : regex :=
  match l with
  | [] => Lit EmptyString
  | [r] => r
  | r :: rest => Seq r (seq_of rest)
  end.

End Text.

(** ** The diagnostic formatter *)

Module Diagnostics.
Import Async Text.

(** [ts.DiagnosticMessageChain] *)
Inductive DiagnosticMessageChain : Type :=
| MkChain (messageText : string) (category : Z) (code : Z)
    (next : option (list DiagnosticMessageChain)).

Definition chain_messageText (c : DiagnosticMessageChain) : string :=
  match c with MkChain t _ _ _ => t end.
Definition chain_code (c : DiagnosticMessageChain) : Z :=
  match c with MkChain _ _ k _ => k end.
Definition chain_next (c : DiagnosticMessageChain)
  : option (list DiagnosticMessageChain) :=
  match c with MkChain _ _ _ n => n end.

(** [string | DiagnosticMessageChain] *)
Definition MessageText : Type := (string + DiagnosticMessageChain)%type.

(** [ts.SourceFile], as far as the formatter looks at it.  [fullText] is
    what [file.getFullText(file.getSourceFile())] returns. *)
Record SourceFile : Type := {
  fileName : string;
  text : string;
  getLineAndCharacterOfPosition : option Z -> Z * Z;
  fullText : string
}.

(** [ts.Diagnostic] *)
Record Diagnostic : Type := {
  category : Z;
  code : Z;
  file : option SourceFile;
  start : option Z;
  messageText : MessageText
}.

(** The [ts] argument. *)
Record TypeScript : Type := {
  flattenDiagnosticMessageText : MessageText -> string -> string
}.

(** [chalk], [path] and [codeFrameColumns].  [chalk_bold] is also called
    with a capture that may be [undefined]. *)
Class Environment : Type := {
  chalk_bold : option string -> string;
  chalk_cyan : string -> string;
  chalk_yellow : string -> string;
  chalk_yellow_bold : string -> string;
  chalk_red_bold : string -> string;
  chalk_cyan_bold : string -> string;
  path_join : list string -> string;
  path_relative : string -> string -> string;
  path_posix_normalize : string -> string;
  (* codeFrameColumns(rawLines, { start: { line, column } }, { forceColor: true }) *)
  codeFrameColumns : string -> Z -> Z -> string
}.

(** [export enum DiagnosticCategory] *)
Module DiagnosticCategory.
Definition Warning : Z := 0.
Definition Error : Z := 1.
Definition Suggestion : Z := 2.
Definition Message : Z := 3.
End DiagnosticCategory.

(** The patterns, as the regular-expression literals of the source parse. *)

(* /Type '"(.+)"' is not assignable to type 'Route<string> | URL'\./ *)
Definition re_link_route_url : regex :=
  Alt (seq_of [Lit ("Type '" +:+ dq); Group 1 DotPlus;
               Lit (dq +:+ "' is not assignable to type 'Route<string> ")])
      (Lit " URL'.").

(* /Type '"(.+)"' is not assignable to type 'URL | Route<string>'\./ *)
Definition re_link_url_route : regex :=
  Alt (seq_of [Lit ("Type '" +:+ dq); Group 1 DotPlus;
               Lit (dq +:+ "' is not assignable to type 'URL ")])
      (Lit " Route<string>'.").

(* /^\/\/ File: (.+)\n/ *)
Definition re_file_comment : regex :=
  seq_of [Bol; Lit "// File: "; Group 1 DotPlus; Lit nl].

(* /'typeof import\(".+page"\)'/ *)
Definition re_page_import : regex :=
  seq_of [Lit ("'typeof import(" +:+ dq); DotPlus; Lit ("page" +:+ dq +:+ ")'")].

(* /'typeof import\("(.+)"\)'.+'(.+)'/ *)
Definition re_filepath_and_type : regex :=
  seq_of [Lit ("'typeof import(" +:+ dq); Group 1 DotPlus; Lit (dq +:+ ")'");
          DotPlus; Lit "'"; Group 2 DotPlus; Lit "'"].

(* /'typeof import\("(.+)"\)'.+Impossible<"(.+)">/ *)
Definition re_filepath_and_invalid_export : regex :=
  seq_of [Lit ("'typeof import(" +:+ dq); Group 1 DotPlus; Lit (dq +:+ ")'");
          DotPlus; Lit ("Impossible<" +:+ dq); Group 2 DotPlus; Lit (dq +:+ ">")].

(* /The types of '(.+)'/ *)
Definition re_types_of : regex :=
  seq_of [Lit "The types of '"; Group 1 DotPlus; Lit "'"].

(* /Type '(.+)' is not assignable to type '(.+)'./ *)
Definition re_not_assignable : regex :=
  seq_of [Lit "Type '"; Group 1 DotPlus; Lit "' is not assignable to type '";
          Group 2 DotPlus; Lit "'"; Dot].

(* /Type '(.+)' is missing the following properties from type '(.+)'/ *)
Definition re_missing_properties : regex :=
  seq_of [Lit "Type '"; Group 1 DotPlus;
          Lit "' is missing the following properties from type '";
          Group 2 DotPlus; Lit "'"].

(* /Type '(.+)' has/ *)
Definition re_type_has : regex :=
  seq_of [Lit "Type '"; Group 1 DotPlus; Lit "' has"].

(* /Property '(.+)' is missing in type 'PageProps'/ *)
Definition re_missing_in_page_props : regex :=
  seq_of [Lit "Property '"; Group 1 DotPlus;
          Lit "' is missing in type 'PageProps'"].

(* /Property '(.+)' is missing in type 'LayoutProps' but required in type '(.+)'/ *)
Definition re_missing_in_layout_props : regex :=
  seq_of [Lit "Property '"; Group 1 DotPlus;
          Lit "' is missing in type 'LayoutProps' but required in type '";
          Group 2 DotPlus; Lit "'"].

(** [a || b] on results of [match]. *)
Definition match_or (a b : option MatchResult) : option MatchResult :=
  match a with Some m => Some m | None => b end.

(** [a === s] for [a : string | undefined]. *)
Definition is_string (a : option string) (s : string) : bool :=
  match a with Some x => String.eqb x s | None => false end.

Section WithEnvironment.
Context {E : Environment}.

Definition getFormattedLinkDiagnosticMessageText (diagnostic : Diagnostic)
  : option string :=
  match messageText diagnostic with
  | inl message =>
      if (code diagnostic =? 2322)%Z then
        match match_or (str_match message re_link_route_url)
                       (str_match message re_link_url_route) with
        | Some m =>
            let href := group m 1 in
            Some (quoted (chalk_bold href) +:+
                  " is not an existing route. If it is intentional, please type it explicitly with `as Route`.")
        | None => None
        end
      else None
  | inr _ => None
  end.

(** The [case] arms of the [switch (item.code)] of [processNext]: [main]
    after each. *)
Definition case_2200 (indent : nat) (item : DiagnosticMessageChain)
    (main : string) : Completion string :=
  match str_match (chain_messageText item) re_types_of with
  | Some mismatchedField =>
      Normal (main +:+ nl +:+ spaces (indent * 2) +:+
              quoted (chalk_bold (group mismatchedField 1)) +:+
              " has the wrong type:")
  | None => Normal main
  end.

Definition case_2322 (type : string) (indent : nat)
    (item : DiagnosticMessageChain) (main : string) : Completion string :=
  match str_match (chain_messageText item) re_not_assignable with
  | Some types =>
      let main := main +:+ nl +:+ spaces (indent * 2) in
      if is_string (group types 2) "PageComponent"
         || is_string (group types 2) "LayoutComponent" then
        Normal (main +:+ "The exported " +:+ type +:+
                " component isn't correctly typed.")
      else
        match group types 2 with
        | Some expected =>
            Normal (main +:+ "Expected " +:+
                    quoted (chalk_bold (Some
                      (replace_first (quoted "__invalid_negative_number__")
                         "number (>= 0)" expected))) +:+
                    ", got " +:+ quoted (chalk_bold (group types 1)) +:+ ".")
        | None =>
            (* types[2].replace on undefined *)
            Throw (MkTypeError
              "Cannot read properties of undefined (reading 'replace')")
        end
  | None => Normal main
  end.

Definition case_2326 (indent : nat) (main : string) : Completion string :=
  Normal (main +:+ nl +:+ spaces (indent * 2) +:+ "Invalid configuration:").

Definition case_2739 (type : string) (indent : nat)
    (item : DiagnosticMessageChain) (main : string) : Completion string :=
  match str_match (chain_messageText item) re_missing_properties with
  | Some invalidProp =>
      if is_string (group invalidProp 1) "LayoutProps"
         || is_string (group invalidProp 1) "PageProps" then
        Normal (main +:+ nl +:+ spaces (indent * 2) +:+ "Prop " +:+
                quoted (template_of (group invalidProp 2)) +:+
                " is incompatible with the " +:+ type +:+ ".")
      else Normal main
  | None => Normal main
  end.

Definition case_2559 (indent : nat) (item : DiagnosticMessageChain)
    (main : string) : Completion string :=
  match str_match (chain_messageText item) re_type_has with
  | Some invalid =>
      Normal (main +:+ nl +:+ spaces (indent * 2) +:+ "Type " +:+
              quoted (chalk_bold (group invalid 1)) +:+ " isn't allowed.")
  | None => Normal main
  end.

Definition case_2741 (indent : nat) (item : DiagnosticMessageChain)
    (main : string) : Completion string :=
  match str_match (chain_messageText item) re_missing_in_page_props with
  | Some incompatPageProp =>
      Normal (main +:+ nl +:+ spaces (indent * 2) +:+ "Prop " +:+
              quoted (chalk_bold (group incompatPageProp 1)) +:+
              " will never be passed. Remove it from the component's props.")
  | None =>
      match str_match (chain_messageText item) re_missing_in_layout_props with
      | Some extraLayoutProp =>
          Normal (main +:+ nl +:+ spaces (indent * 2) +:+ "Prop " +:+
                  quoted (chalk_bold (group extraLayoutProp 1)) +:+
                  " is not valid for this Layout, remove it to fix.")
      | None => Normal main
      end
  end.

(** The [switch (item.code)] of [processNext]. *)
Definition process_item_code (type : string) (indent : nat)
    (item : DiagnosticMessageChain) (main : string) : Completion string :=
  let code := chain_code item in
  if (code =? 2200)%Z then case_2200 indent item main
  else if (code =? 2322)%Z then case_2322 type indent item main
  else if (code =? 2326)%Z then case_2326 indent main
  else if (code =? 2739)%Z then case_2739 type indent item main
  else if (code =? 2559)%Z then case_2559 indent item main
  else if (code =? 2741)%Z then case_2741 indent item main
  else Normal main.

(** One turn of the [for (const item of next)] loop of [processNext]: the
    [switch], then [processNext(indent + 1, item.next)]. *)
Fixpoint process_item (type : string) (indent : nat)
    (item : DiagnosticMessageChain) (main : string) {struct item}
  : Completion string :=
  match process_item_code type indent item main with
  | Throw e => Throw e
  | Normal main =>
      match item with
      | MkChain _ _ _ None => Normal main
      | MkChain _ _ _ (Some items) =>
          (fix each (items : list DiagnosticMessageChain) (main : string)
             : Completion string :=
             match items with
             | [] => Normal main
             | i :: rest =>
                 match process_item type (S indent) i main with
                 | Throw e => Throw e
                 | Normal main => each rest main
                 end
             end) items main
      end
  end.

(** [processNext(indent, next)]: the value of [main] after the call. *)
Definition processNext (type : string) (indent : nat)
    (next : option (list DiagnosticMessageChain)) (main : string)
  : Completion string :=
  match next with
  | None => Normal main
  | Some items =>
      fold_left
        (fun acc item =>
           match acc with
           | Throw e => Throw e
           | Normal main => process_item type indent item main
           end)
        items (Normal main)
  end.

(** [diagnostic.file?.text.trim().match(/^\/\/ File: (.+)\n/)?.[1] || ''] *)
Definition sourceFilepath_of (diagnostic : Diagnostic) : string :=
  match file diagnostic with
  | Some f =>
      match str_match (trim (text f)) re_file_comment with
      | Some m => match group m 1 with Some s => s | None => EmptyString end
      | None => EmptyString
      end
  | None => EmptyString
  end.

Definition getFormattedLayoutAndPageDiagnosticMessageText (baseDir : string)
    (diagnostic : Diagnostic) : Completion (option string) :=
  let message := messageText diagnostic in
  let sourceFilepath := sourceFilepath_of diagnostic in
  match message with
  | inr message =>
      if negb (String.eqb sourceFilepath EmptyString) then
        let relativeSourceFile := path_relative baseDir sourceFilepath in
        let type :=
          if re_test re_page_import (chain_messageText message)
          then "Page" else "Layout" in
        if (chain_code message =? 2344)%Z then
          match str_match (chain_messageText message) re_filepath_and_type with
          | Some filepathAndType =>
              let main :=
                type +:+ " " +:+ quoted (chalk_bold (Some relativeSourceFile))
                +:+ " does not match the required types of a Next.js "
                +:+ type +:+ "." in
              match processNext type 1 (chain_next message) main with
              | Throw e => Throw e
              | Normal main => Normal (Some main)
              end
          | None => Normal None
          end
        else if (chain_code message =? 2345)%Z then
          match str_match (chain_messageText message)
                  re_filepath_and_invalid_export with
          | Some filepathAndInvalidExport =>
              let main :=
                type +:+ " " +:+ quoted (chalk_bold (Some relativeSourceFile))
                +:+ " exports an invalid "
                +:+ quoted (chalk_bold (group filepathAndInvalidExport 2))
                +:+ " field. " +:+ type
                +:+ " should only export a default React component and configuration options. Learn more: https://nextjs.org/docs/messages/invalid-segment-export" in
              Normal (Some main)
          | None => Normal None
          end
        else Normal None
      else Normal None
  | inl _ => Normal None
  end.

(** The truth value of [isLayoutOrPageError]. *)
Definition isLayoutOrPageError (baseDir distDir : string)
    (diagnostic : Diagnostic) (isAppDirEnabled : option bool) : bool :=
  match isAppDirEnabled with
  | Some true =>
      match file diagnostic with
      | Some f => startsWith (fileName f) (path_join [baseDir; distDir; "types"])
      | None => false
      end
  | _ => false
  end.

(** [a || b] where [a : string | undefined | null]. *)
Definition string_or (a : option string) (b : string) : string :=
  match a with
  | Some s => if String.eqb s EmptyString then b else s
  | None => b
  end.

Definition is_truthy_string (a : option string) : bool :=
  match a with
  | Some s => negb (String.eqb s EmptyString)
  | None => false
  end.

(** The text the [switch (category)] appends to [message]. *)
Definition category_label (category : Z) : string :=
  if (category =? DiagnosticCategory.Warning)%Z then
    chalk_yellow_bold "Type warning" +:+ ": "
  else if (category =? DiagnosticCategory.Error)%Z then
    chalk_red_bold "Type error" +:+ ": "
  else
    chalk_cyan_bold (if (category =? 2)%Z then "Suggestion" else "Info")
    +:+ ": ".

(** The first part of [getFormattedDiagnostic]: the value of [message] when
    the test on [diagnostic.file] is reached, or what was thrown before. *)
Definition base_message (ts : TypeScript) (baseDir distDir : string)
    (diagnostic : Diagnostic) (isAppDirEnabled : option bool)
  : Completion string :=
  let isLayoutOrPageError :=
    isLayoutOrPageError baseDir distDir diagnostic isAppDirEnabled in
  let message := EmptyString in
  let linkReason := getFormattedLinkDiagnosticMessageText diagnostic in
  match
    (if negb (is_truthy_string linkReason) && isLayoutOrPageError
     then getFormattedLayoutAndPageDiagnosticMessageText baseDir diagnostic
     else Normal None)
  with
  | Throw e => Throw e
  | Normal layoutReason =>
      let reason :=
        string_or linkReason
          (string_or layoutReason
             (flattenDiagnosticMessageText ts (messageText diagnostic) nl)) in
      let message := message +:+ category_label (category diagnostic) in
      let message := message +:+ reason +:+ nl in
      Normal message
  end.

(** The [fileName] shown in front of a diagnostic of the file [f]. *)
Definition shown_fileName (baseDir : string) (f : SourceFile) : string :=
  let fileName :=
    path_posix_normalize
      (backslashes_to_slashes (path_relative baseDir (fileName f))) in
  if negb (startsWith fileName ".") then "./" +:+ fileName else fileName.

(** The body of [if (!isLayoutOrPageError && diagnostic.file)]: [message]
    after it. *)
Definition with_location (baseDir : string) (f : SourceFile)
    (start : option Z) (message : string) : string :=
  let pos := getLineAndCharacterOfPosition f start in
  let line := (fst pos + 1)%Z in
  let character := (snd pos + 1)%Z in
  let fileName := shown_fileName baseDir f in
  let message :=
    chalk_cyan fileName +:+ ":" +:+
    chalk_yellow (Js.number_to_string line) +:+ ":" +:+
    chalk_yellow (Js.number_to_string character) +:+ nl +:+
    message in
  message +:+ nl +:+ codeFrameColumns (fullText f) line character.

(** [getFormattedDiagnostic], an [async] function. *)
Definition getFormattedDiagnostic (ts : TypeScript) (baseDir distDir : string)
    (diagnostic : Diagnostic) (isAppDirEnabled : option bool)
  : Promise string :=
  match base_message ts baseDir distDir diagnostic isAppDirEnabled with
  | Throw e => Rejected e
  | Normal message =>
      match file diagnostic with
      | Some f =>
          if negb (isLayoutOrPageError baseDir distDir diagnostic
                     isAppDirEnabled)
          then Fulfilled (with_location baseDir f (start diagnostic) message)
          else Fulfilled message
      | None => Fulfilled message
      end
  end.

End WithEnvironment.

End Diagnostics.

(** ** The initial router state *)

Module Router.

Section InitialState.

(** The types the router state passes through, the [CacheStates] enum with
    its member [READY], and [createHrefFromUrl]; all are declared in other
    files. *)
Context {FlightRouterState ReactNode ChildSegmentMap PrefetchEntry CacheData
         Location CacheStates : Type}.
Context (CacheStates_READY : CacheStates).
Context (createHrefFromUrl : Location -> string).

Record CacheNode : Type := {
  status : CacheStates;
  data : option CacheData;
  subTreeData : ReactNode;
  parallelRoutes : gmap string ChildSegmentMap
}.

Record InitialRouterStateParameters : Type := {
  initialTree : FlightRouterState;
  initialCanonicalUrl : string;
  children : ReactNode;
  initialParallelRoutes : gmap string ChildSegmentMap;
  isServer : bool;
  location : option Location
}.

Record PushRef : Type := { pendingPush : bool; mpaNavigation : bool }.

Record FocusAndScrollRef : Type := { apply : bool }.

Record RouterState : Type := {
  tree : FlightRouterState;
  cache : CacheNode;
  prefetchCache : gmap string PrefetchEntry;
  pushRef : PushRef;
  focusAndScrollRef : FocusAndScrollRef;
  canonicalUrl : string
}.

Definition createInitialRouterState (params : InitialRouterStateParameters)
  : RouterState :=
  {| tree := initialTree params;
     cache :=
       {| status := CacheStates_READY;
          data := None;
          subTreeData := children params;
          parallelRoutes :=
            if isServer params then ∅ else initialParallelRoutes params |};
     prefetchCache := ∅;
     pushRef := {| pendingPush := false; mpaNavigation := false |};
     focusAndScrollRef := {| apply := false |};
     canonicalUrl :=
       match location params with
       | Some l => createHrefFromUrl l
       | None => initialCanonicalUrl params
       end |}.

End InitialState.

End Router.

(** ** The shape of the accumulation, in the words of its description *)

Module Fold.
Import Js Async Metadata.

Section WithResolvers.
Context {R : Resolvers}.

(** One step of the left fold over the metadata items: the accumulated
    promise [parent] is handed to the item's resolver, when the item has one,
    and the layer is merged once both promises are fulfilled.  A resolver
    that throws ends the fold. *)
Definition layer_step (acc : Completion (Promise Obj))
    (item : MetadataExport * value) : Completion (Promise Obj) :=
  match acc with
  | Throw e => Throw e
  | Normal parent =>
      match fst item with
      | ExportValue v => Normal (chain_layer parent (Fulfilled v) (snd item))
      | ExportFunction f =>
          match f parent with
          | Throw e => Throw e
          | Normal layer =>
              Normal (chain_layer parent (Promise_resolve layer) (snd item))
          end
      end
  end.

(** The metadata an item contributes when the metadata accumulated before
    it is [resolved]; [None] when its resolver throws, or returns a promise
    that is rejected or never settles. *)
Definition exported_by (resolved : Obj) (metadataExport : MetadataExport)
  : option value :=
  match metadataExport with
  | ExportValue v => Some v
  | ExportFunction f =>
      match f (Fulfilled resolved) with
      | Normal layer =>
          match Promise_resolve layer with
          | Fulfilled v => Some v
          | _ => None
          end
      | Throw _ => None
      end
  end.

(** The left fold of [merge] over the items, on values. *)
Fixpoint merge_items (metadataItems : MetadataItems) (resolved : Obj)
  : option Obj :=
  match metadataItems with
  | [] => Some resolved
  | (metadataExport, staticFilesMetadata) :: rest =>
      match exported_by resolved metadataExport with
      | Some exportedMetadata =>
          merge_items rest
            (merge_layer resolved exportedMetadata staticFilesMetadata)
      | None => None
      end
  end.

End WithResolvers.

End Fold.

(** ** Sample collaborators and inputs *)

Module Samples.
Import Js Async Metadata Text Diagnostics.

(** A title resolver in the manner of resolve-title.ts: the title becomes
    an object with its absolute text and its template. *)
Definition sample_mergeTitle (o : Obj) (template : value) : Obj :=
  let title := obj_get o "title" in
  let absolute :=
    match title with
    | VStr s => VStr s
    | _ => js_or (opt_member title "absolute") (VStr EmptyString)
    end in
  obj_set o "title"
    (VObj [("absolute", absolute);
           ("template", js_or (opt_member title "template") VNull)]).

Definition null_if_missing (v : value) : value := js_or v VNull.

Definition sample_asArray (v : value) : value :=
  match v with
  | VUndefined | VNull => VUndefined
  | VArr l => VArr l
  | _ => VArr [v]
  end.

(** Modules that carry a [$$typeof] mark count as client references. *)
Definition sample_isClientReference (module : Module) : bool :=
  prop_truthy (mod_get module "$$typeof").

Definition sample_resolvers : Resolvers := {|
  createDefaultMetadata :=
    [("metadataBase", VNull); ("title", VNull); ("description", VNull);
     ("keywords", VNull); ("openGraph", VNull); ("icons", VNull);
     ("other", VObj [])];
  mergeTitle := sample_mergeTitle;
  resolveOpenGraph := fun v _ => null_if_missing v;
  resolveTwitter := fun v _ => null_if_missing v;
  resolveAlternates := fun v _ => null_if_missing v;
  resolveAppleWebApp := null_if_missing;
  resolveAppLinks := null_if_missing;
  resolveRobots := null_if_missing;
  resolveVerification := null_if_missing;
  resolveViewport := null_if_missing;
  resolveIcons := null_if_missing;
  resolveAsArrayOrUndefined := sample_asArray;
  isClientReference := sample_isClientReference
|}.

(** A resolver that awaits the parent and extends its description. *)
Definition sample_generateMetadata (args : list Arg)
  : Completion (Returned value) :=
  match args with
  | [ArgValue _; ArgPromise (Fulfilled parent)] =>
      Normal (RetPromise (Fulfilled
        (VObj [("description",
                VStr (to_string (obj_get parent "description") +:+ "!"))])))
  | [ArgValue _; ArgPromise (Rejected e)] => Normal (RetPromise (Rejected e))
  | _ => Normal (RetPromise Pending)
  end.

Definition sample_metadata : value :=
  VObj [("title", VStr "Home"); ("description", VStr "static")].

(** A server module that exports both [metadata] and [generateMetadata]. *)
Definition sample_both_module : Module :=
  [("path", PropValue (VStr "app/page.tsx"));
   ("metadata", PropValue sample_metadata);
   ("generateMetadata",
    PropFunction "async function generateMetadata" sample_generateMetadata)].

(** The same exports on a client reference. *)
Definition sample_client_module : Module :=
  ("$$typeof", PropValue (VStr "react.client.reference")) :: sample_both_module.

Definition sample_static_module : Module :=
  [("path", PropValue (VStr "app/layout.tsx"));
   ("metadata", PropValue sample_metadata)].

Definition sample_resolver : MetadataResolver :=
  fun parent => sample_generateMetadata [ArgValue VUndefined; ArgPromise parent].

Definition sample_icons : value :=
  VObj [("icons", VObj [("icon", VArr [VObj [("url", VStr "/icon.png")]])])].

Definition sample_items : MetadataItems :=
  [(ExportValue sample_metadata, VNull);
   (ExportFunction sample_resolver, sample_icons)].

(** Wrappers that make the styling visible, and plain path functions. *)
Definition sample_environment : Environment := {|
  chalk_bold := fun s => "<b>" +:+ template_of s +:+ "</b>";
  chalk_cyan := fun s => "<cyan>" +:+ s +:+ "</cyan>";
  chalk_yellow := fun s => "<yellow>" +:+ s +:+ "</yellow>";
  chalk_yellow_bold := fun s => "<yellow,b>" +:+ s +:+ "</yellow,b>";
  chalk_red_bold := fun s => "<red,b>" +:+ s +:+ "</red,b>";
  chalk_cyan_bold := fun s => "<cyan,b>" +:+ s +:+ "</cyan,b>";
  path_join := fun parts => String.concat "/" parts;
  path_relative := fun from to =>
    match strip_prefix (from +:+ "/") to with
    | Some rest => rest
    | None => to
    end;
  path_posix_normalize := fun p => p;
  codeFrameColumns := fun raw line column =>
    "> " +:+ Js.number_to_string line +:+ " | " +:+ raw
|}.

Definition sample_ts : TypeScript :=
  {| flattenDiagnosticMessageText := fun m _ =>
       match m with
       | inl s => s
       | inr c => chain_messageText c
       end |}.

Definition sample_file : SourceFile :=
  {| fileName := "/repo/app/page.tsx";
     text := "export default 1";
     getLineAndCharacterOfPosition := fun _ => (2%Z, 4%Z);
     fullText := "export default 1" |}.

Definition sample_diagnostic : Diagnostic :=
  {| category := 1;
     code := 2322;
     file := Some sample_file;
     start := Some 7%Z;
     messageText := inl "Type 'number' is not assignable to type 'string'." |}.

(** A message about a [string] that is not a route literal. *)
Definition sample_string_href_diagnostic : Diagnostic :=
  {| category := 1;
     code := 2322;
     file := None;
     start := None;
     messageText :=
       inl "Type 'string' is not assignable to type 'Route<string> | URL'." |}.

(** A diagnostic of a generated file under the types directory. *)
Definition sample_types_file : SourceFile :=
  {| fileName := "/repo/.next/types/app/page.ts";
     text := "// File: /repo/app/page.tsx" +:+ nl +:+ "import * as entry";
     getLineAndCharacterOfPosition := fun _ => (0%Z, 0%Z);
     fullText := "// File: /repo/app/page.tsx" +:+ nl +:+ "import * as entry" |}.

Definition sample_layout_diagnostic : Diagnostic :=
  {| category := 1;
     code := 2344;
     file := Some sample_types_file;
     start := Some 0%Z;
     messageText :=
       inr (MkChain
              ("Type 'typeof import(" +:+ dq +:+ "/repo/app/page" +:+ dq
               +:+ ")' does not satisfy the constraint 'PageProps'.")
              1 2344
              (Some [MkChain "Type 'number' is not assignable to type 'string'."
                       1 2322 None])) |}.

End Samples.

(** ** Auxiliary notions used in the statements *)

Module Notions.
Import Js Async Metadata.

(** The fixed key an arm of the [switch] assigns, for the arms that name
    one. *)
Definition case_key (c : MergeCase) : option string :=
  match c with
  | CaseTitle => Some "title"
  | CaseAlternates => Some "alternates"
  | CaseOpenGraph => Some "openGraph"
  | CaseTwitter => Some "twitter"
  | CaseVerification => Some "verification"
  | CaseViewport => Some "viewport"
  | CaseIcons => Some "icons"
  | CaseAppleWebApp => Some "appleWebApp"
  | CaseAppLinks => Some "appLinks"
  | CaseRobots => Some "robots"
  | CaseOther => Some "other"
  | CaseMetadataBase => Some "metadataBase"
  | CaseArrayField | CaseDirectField | CaseDefault => None
  end.

(** [mergeTitle] writes no property of the object it is handed but
    [title]. *)
Definition writes_only_title (R : Resolvers) : Prop :=
  forall (o : Obj) (template : value) (k : string),
    k <> "title" ->
    obj_get (mergeTitle o template) k = obj_get o k /\
    obj_has (mergeTitle o template) k = obj_has o k.

(** The groups a match of [r] is sure to have captured. *)
Fixpoint binds (r : Text.regex) : list nat :=
  match r with
  | Text.Group n r1 => n :: binds r1
  | Text.Seq r1 r2 => binds r1 ++ binds r2
  | _ => []
  end.

(** Group [n] has a capture in [caps]. *)
Definition bound (caps : Text.Captures) (n : nat) : Prop :=
  In n (map fst caps).

(** The two link patterns as their messages read, with the [|] of the union
    type taken as a character. *)
Definition described_route_url : Text.regex :=
  Text.seq_of
    [Text.Lit ("Type '" +:+ Text.dq); Text.Group 1 Text.DotPlus;
     Text.Lit (Text.dq +:+ "' is not assignable to type 'Route<string> | URL'.")].

Definition described_url_route : Text.regex :=
  Text.seq_of
    [Text.Lit ("Type '" +:+ Text.dq); Text.Group 1 Text.DotPlus;
     Text.Lit (Text.dq +:+ "' is not assignable to type 'URL | Route<string>'.")].

(** The text of the rewritten link message for the captured [href]. *)
Definition link_text {E : Diagnostics.Environment} (href : option string)
  : string :=
  Text.quoted (Diagnostics.chalk_bold href) +:+
  " is not an existing route. If it is intentional, please type it explicitly with `as Route`.".

(** The module has a property [k] ([k] is exported). *)
Definition exports (module : Module) (k : string) : Prop :=
  mod_get module k <> PropValue VUndefined.

(** The property [k] of the module is a function. *)
Definition exports_function (module : Module) (k : string) : Prop :=
  exists text f, mod_get module k = PropFunction text f.

(** The module exports a [metadata] field and a [generateMetadata]
    function. *)
Definition exports_both (module : Module) : Prop :=
  exports module "metadata" /\ exports_function module "generateMetadata".

(** [mod.metadata && mod.generateMetadata] is truthy. *)
Definition both_truthy (module : Module) : bool :=
  prop_truthy (mod_get module "metadata")
  && prop_truthy (mod_get module "generateMetadata").

(* NOTIONS-END *)
End Notions.

(** ** Static metadata files and the collection of the items *)

Module Collect.
Import Js Async Metadata.

(** ['icon' | 'apple'] *)
Inductive IconType : Type := type_icon | type_apple.

(** A loader of an icon file: called without arguments, it returns the
    loaded module or a promise of it, or throws. *)
Definition IconResolver : Type := unit -> Completion (Returned value).

(** [ComponentsType['metadata']], as far as it is read here. *)
Record StaticMetadataFiles : Type := {
  icon : option (list IconResolver);
  apple : option (list IconResolver)
}.

(** [ComponentsType], as far as it is read here. *)
Record ComponentsType : Type := {
  metadata : option StaticMetadataFiles
}.

(** The loader side, whose code is elsewhere: the type [LoaderTree] with
    [loaderTree[2]], [getLayoutOrPageModule], [interopDefault], and
    [Promise.all].  Which of several rejections [Promise.all] reports depends
    on the order in time, which a settled promise does not record; it is a
    parameter, described by [lawful_all] below. *)
Class Loader : Type := {
  LoaderTree : Type;
  loaderTree_components : LoaderTree -> ComponentsType;
  getLayoutOrPageModule : LoaderTree -> Promise (option Module);
  interopDefault : value -> value;
  Promise_all : forall A : Type, list (Promise A) -> Promise (list A)
}.

(** [metadata[type]] *)
Definition files_of (metadata : StaticMetadataFiles) (type : IconType)
  : option (list IconResolver) :=
  match type with
  | type_icon => icon metadata
  | type_apple => apple metadata
  end.

Section WithLoader.
Context {R : Resolvers} {L : Loader}.

(** [async (iconResolver) => interopDefault(await iconResolver())] *)
Definition load_icon (iconResolver : IconResolver) : Promise value :=
  match iconResolver tt with
  | Throw e => Rejected e
  | Normal loaded =>
      Promise_then (Promise_resolve loaded)
        (fun m => RetValue (interopDefault m))
  end.

Definition collectStaticFsBasedIcons (metadata : option StaticMetadataFiles)
    (type : IconType) : Promise (option (list value)) :=
  match
    match metadata with
    | Some files => files_of files type
    | None => None
    end
  with
  | None => Fulfilled None
  | Some resolvers =>
      let iconPromises := map load_icon resolvers in
      if (0 <? length iconPromises)%nat then
        Promise_then (Promise_all value iconPromises)
          (fun icons => RetValue (Some icons))
      else Fulfilled None
  end.

(** The object [icons] after the two conditional assignments. *)
Definition icons_object (icon apple : option (list value)) : Obj :=
  let icons := [] in
  let icons :=
    match icon with
    | Some l => obj_set icons "icon" (VArr l)
    | None => icons
    end in
  match apple with
  | Some l => obj_set icons "apple" (VArr l)
  | None => icons
  end.

Definition resolveStaticMetadata (components : ComponentsType)
  : Promise value :=
  match metadata components with
  | None => Fulfilled VNull
  | Some files =>
      Promise_then
        (Promise_all (option (list value))
           [collectStaticFsBasedIcons (Some files) type_icon;
            collectStaticFsBasedIcons (Some files) type_apple])
        (fun results =>
           (* const [icon, apple] = ... *)
           let icon := nth 0 results None in
           let apple := nth 1 results None in
           RetValue (VObj [("icons", VObj (icons_object icon apple))]))
  end.

(** [await p] in [collectMetadata]: the rest [k] runs when [p] is
    fulfilled; otherwise the function ends there, the array as it was. *)
Definition await_or_stop {A} (array : MetadataItems) (p : Promise A)
    (k : A -> MetadataItems * Promise unit) : MetadataItems * Promise unit :=
  match p with
  | Fulfilled a => k a
  | Rejected e => (array, Rejected e)
  | Pending => (array, Pending)
  end.

(** [collectMetadata(loaderTree, props, array)]: the contents of [array]
    after the call, and the promise returned. *)
Definition collectMetadata (loaderTree : LoaderTree) (props : value)
    (array : MetadataItems) : MetadataItems * Promise unit :=
  await_or_stop array (getLayoutOrPageModule loaderTree) (fun module =>
  await_or_stop array (resolveStaticMetadata (loaderTree_components loaderTree))
    (fun staticFilesMetadata =>
  await_or_stop array
    (match module with
     | Some m => getDefinedMetadata m props
     | None => Fulfilled (ExportValue VNull)
     end)
    (fun metadataExport =>
       (array ++ [(metadataExport, staticFilesMetadata)], Fulfilled tt)))).

End WithLoader.

End Collect.

(** ** Further notions and samples *)

Module Notions2.
Import Js Async Metadata Collect.

(** What [Promise.all] does with settled promises: it is fulfilled, with
    the values in order, when all are; rejected with the error of one of the
    rejected promises when some are; and never settles otherwise. *)
Definition lawful_all (L : Loader) : Prop :=
  forall (A : Type) (ps : list (Promise A)),
    match Promise_all A ps with
    | Fulfilled vs => ps = map Fulfilled vs
    | Rejected e => In (Rejected e) ps
    | Pending => (forall e, ~ In (Rejected e) ps) /\ In Pending ps
    end.



(** [s] has no line terminator. *)
Definition one_line (s : string) : Prop :=
  forall c, In c (list_ascii_of_string s) -> Text.is_line_terminator c = false.

(** The message TypeScript gives for a route literal that is no route,
    with the union type in the given order. *)
Definition route_literal_message (href union : string) : string :=
  "Type '" +:+ Text.quoted href +:+ "' is not assignable to type '"
  +:+ union +:+ "'.".

(** [Promise.all] taking, of several rejections, the first in the list. *)
Fixpoint all_in_order {A} (ps : list (Promise A)) : Promise (list A) :=
  match ps with
  | [] => Fulfilled []
  | p :: rest =>
      match p, all_in_order rest with
      | Rejected e, _ => Rejected e
      | _, Rejected e => Rejected e
      | Pending, _ => Pending
      | _, Pending => Pending
      | Fulfilled a, Fulfilled l => Fulfilled (a :: l)
      end
  end.

(** A loader whose trees are a module, if any, and the components. *)
Definition sample_loader : Loader := {|
  LoaderTree := (option Module * ComponentsType)%type;
  loaderTree_components := snd;
  getLayoutOrPageModule := fun t => Fulfilled (fst t);
  interopDefault := fun m => js_or (member m "default") m;
  Promise_all := @all_in_order
|}.

(** An icon file that loads as the module [m]. *)
Definition file_loading (m : value) : IconResolver :=
  fun _ => Normal (RetPromise (Fulfilled m)).

Definition sample_icon_file (url : string) : IconResolver :=
  fun _ =>
    Normal (RetPromise (Fulfilled
      (VObj [("default", VObj [("url", VStr url); ("sizes", VStr "32x32")])]))).

Definition sample_broken_file : IconResolver :=
  fun _ => Throw (MkError "Cannot find module './icon.png'").

Definition sample_components : ComponentsType :=
  {| metadata :=
       Some {| icon := Some [sample_icon_file "/icon.png"];
               apple := Some [] |} |}.

Definition sample_broken_components : ComponentsType :=
  {| metadata :=
       Some {| icon := Some [sample_icon_file "/icon.png"; sample_broken_file];
               apple := None |} |}.

End Notions2.

(** ** Properties of plain objects *)

Module ObjectFacts.
Import Js.

Lemma obj_get_set_eq (o : Obj) (k : string) (v : value) :
  obj_get (obj_set o k v) k = v.
Proof.
  induction o as [|[k' v'] o IH]; simpl.
  - now rewrite String.eqb_refl.
  - destruct (String.eqb k' k) eqn:E; simpl; rewrite E; auto.
Qed.

Lemma obj_get_set_ne (o : Obj) (k k' : string) (v : value) :
  k <> k' -> obj_get (obj_set o k' v) k = obj_get o k.
Proof.
  intros Hne. induction o as [|[k0 v0] o IH]; simpl.
  - destruct (String.eqb_spec k' k); [congruence | reflexivity].
  - destruct (String.eqb_spec k0 k'); simpl.
    + subst k0. destruct (String.eqb_spec k' k); [congruence | reflexivity].
    + destruct (String.eqb_spec k0 k); auto.
Qed.

Lemma obj_has_set_eq (o : Obj) (k : string) (v : value) :
  obj_has (obj_set o k v) k = true.
Proof.
  induction o as [|[k' v'] o IH]; simpl.
  - now rewrite String.eqb_refl.
  - destruct (String.eqb k' k) eqn:E; simpl; rewrite E; auto.
Qed.

Lemma obj_has_set_ne (o : Obj) (k k' : string) (v : value) :
  k <> k' -> obj_has (obj_set o k' v) k = obj_has o k.
Proof.
  intros Hne. induction o as [|[k0 v0] o IH]; simpl.
  - destruct (String.eqb_spec k' k); [congruence | reflexivity].
  - destruct (String.eqb_spec k0 k'); simpl.
    + subst k0. destruct (String.eqb_spec k' k); [congruence | reflexivity].
    + destruct (String.eqb_spec k0 k); auto.
Qed.

Lemma obj_has_set (o : Obj) (k k' : string) (v : value) :
  obj_has (obj_set o k' v) k = String.eqb k' k || obj_has o k.
Proof.
  destruct (String.eqb_spec k' k) as [->|Hne]; simpl.
  - apply obj_has_set_eq.
  - apply obj_has_set_ne; congruence.
Qed.

Lemma obj_get_set (o : Obj) (k k' : string) (v : value) :
  obj_get (obj_set o k' v) k = if String.eqb k' k then v else obj_get o k.
Proof.
  destruct (String.eqb_spec k' k) as [->|Hne].
  - apply obj_get_set_eq.
  - apply obj_get_set_ne; congruence.
Qed.

(** Assigning to a property the value it has changes nothing. *)
Lemma obj_set_same (o : Obj) (k : string) :
  obj_has o k = true -> obj_set o k (obj_get o k) = o.
Proof.
  induction o as [|[k' v'] o IH]; simpl; [discriminate|].
  destruct (String.eqb k' k) eqn:E; [reflexivity|].
  intros H. now rewrite IH.
Qed.

Lemma existsb_eqb_In (k : string) (seen : list string) :
  existsb (String.eqb k) seen = true <-> In k seen.
Proof.
  rewrite existsb_exists. split.
  - intros [x [Hin Heq]]. apply String.eqb_eq in Heq. now subst.
  - intros Hin. exists k. split; [assumption | apply String.eqb_refl].
Qed.

Lemma obj_entries_from_get (o : Obj) :
  forall seen k,
    obj_get (obj_entries_from seen o) k
      = if existsb (String.eqb k) seen then VUndefined else obj_get o k.
Proof.
  induction o as [|[k' v'] o IH]; intros seen k; simpl.
  - now destruct (existsb _ seen).
  - destruct (existsb (String.eqb k') seen) eqn:Hseen.
    + rewrite IH. destruct (existsb (String.eqb k) seen) eqn:Hk; [reflexivity|].
      destruct (String.eqb_spec k' k); [congruence | reflexivity].
    + simpl. destruct (String.eqb_spec k' k) as [->|Hne].
      * now rewrite Hseen.
      * rewrite IH. simpl.
        destruct (String.eqb_spec k k'); [congruence | reflexivity].
Qed.

Lemma obj_entries_from_has (o : Obj) :
  forall seen k,
    obj_has (obj_entries_from seen o) k
      = negb (existsb (String.eqb k) seen) && obj_has o k.
Proof.
  induction o as [|[k' v'] o IH]; intros seen k; simpl.
  - now destruct (existsb _ seen).
  - destruct (existsb (String.eqb k') seen) eqn:Hseen.
    + rewrite IH. destruct (existsb (String.eqb k) seen) eqn:Hk; [reflexivity|].
      destruct (String.eqb_spec k' k); [congruence | reflexivity].
    + simpl. destruct (String.eqb_spec k' k) as [->|Hne].
      * now rewrite Hseen.
      * rewrite IH. simpl.
        destruct (String.eqb_spec k k'); [congruence | reflexivity].
Qed.

Lemma obj_entries_get (o : Obj) (k : string) :
  obj_get (obj_entries o) k = obj_get o k.
Proof. unfold obj_entries. now rewrite obj_entries_from_get. Qed.

Lemma obj_entries_has (o : Obj) (k : string) :
  obj_has (obj_entries o) k = obj_has o k.
Proof. unfold obj_entries. now rewrite obj_entries_from_has. Qed.

Lemma obj_entries_from_keys (o : Obj) :
  forall seen k,
    In k (map fst (obj_entries_from seen o)) -> ~ In k seen.
Proof.
  induction o as [|[k' v'] o IH]; intros seen k; simpl; [tauto|].
  destruct (existsb (String.eqb k') seen) eqn:Hseen.
  - apply IH.
  - simpl. intros [<- | Hin].
    + intros Hin. apply existsb_eqb_In in Hin. congruence.
    + intros Hk. apply (IH _ _ Hin). now right.
Qed.

Lemma obj_entries_from_NoDup (o : Obj) :
  forall seen, NoDup (map fst (obj_entries_from seen o)).
Proof.
  induction o as [|[k' v'] o IH]; intros seen; simpl; [constructor|].
  destruct (existsb (String.eqb k') seen); [apply IH|].
  simpl. apply NoDup_cons_2; [|apply IH].
  rewrite list_elem_of_In.
  intros Hin. apply obj_entries_from_keys in Hin. apply Hin. now left.
Qed.

Lemma obj_entries_NoDup (o : Obj) : NoDup (map fst (obj_entries o)).
Proof. apply obj_entries_from_NoDup. Qed.

(** An object without shadowed bindings is its own list of entries. *)
Lemma obj_entries_from_id (o : Obj) :
  forall seen,
    NoDup (map fst o) ->
    (forall k, In k (map fst o) -> ~ In k seen) ->
    obj_entries_from seen o = o.
Proof.
  induction o as [|[k' v'] o IH]; intros seen Hnd Hseen; simpl; [reflexivity|].
  simpl in Hnd. apply NoDup_cons in Hnd as [Hnotin Hnd].
  rewrite list_elem_of_In in Hnotin.
  destruct (existsb (String.eqb k') seen) eqn:E.
  - apply existsb_eqb_In in E. exfalso. apply (Hseen k'); [now left | assumption].
  - f_equal. apply IH; [assumption|].
    intros k Hin [<- | Hk]; [contradiction|].
    apply (Hseen k); [now right | assumption].
Qed.

Lemma obj_entries_idempotent (o : Obj) :
  obj_entries (obj_entries o) = obj_entries o.
Proof.
  unfold obj_entries at 1. apply obj_entries_from_id.
  - apply obj_entries_NoDup.
  - intros k _ [].
Qed.

Lemma obj_keys_entries (o : Obj) : obj_keys (obj_entries o) = obj_keys o.
Proof. unfold obj_keys. now rewrite obj_entries_idempotent. Qed.

Lemma obj_has_In (o : Obj) (k : string) :
  obj_has o k = true <-> In k (map fst o).
Proof.
  induction o as [|[k' v'] o IH]; simpl; [split; [discriminate | tauto]|].
  destruct (String.eqb_spec k' k); [tauto|]. rewrite IH. tauto.
Qed.

Lemma obj_get_NoDup_In (o : Obj) (k : string) (v : value) :
  NoDup (map fst o) -> In (k, v) o -> obj_get o k = v.
Proof.
  induction o as [|[k' v'] o IH]; simpl; [tauto|].
  intros Hnd. apply NoDup_cons in Hnd as [Hnotin Hnd].
  rewrite list_elem_of_In in Hnotin.
  intros [Heq | Hin].
  - inversion Heq; subst. now rewrite String.eqb_refl.
  - destruct (String.eqb_spec k' k) as [->|Hne]; [|auto].
    exfalso. apply Hnotin. apply (in_map fst) in Hin. exact Hin.
Qed.

(** Copying into an object properties it already has, with their values,
    changes nothing. *)
Lemma obj_assign_same (src : Obj) :
  forall dst,
    (forall k v, In (k, v) src -> obj_has dst k = true /\ obj_get dst k = v) ->
    obj_assign dst src = dst.
Proof.
  unfold obj_assign.
  induction src as [|[k v] src IH]; intros dst H; simpl; [reflexivity|].
  destruct (H k v) as [Hhas Hget]; [now left|].
  rewrite <- Hget, obj_set_same by assumption.
  apply IH. intros k' v' Hin. apply H. now right.
Qed.

Lemma obj_set_fresh (o : Obj) (k : string) (v : value) :
  ~ In k (map fst o) -> obj_set o k v = o ++ [(k, v)].
Proof.
  induction o as [|[k' v'] o IH]; simpl; [reflexivity|].
  intros H. destruct (String.eqb_spec k' k); [tauto|].
  f_equal. apply IH. tauto.
Qed.

Lemma obj_assign_fresh (src : Obj) :
  forall dst, NoDup (map fst (dst ++ src)) -> obj_assign dst src = dst ++ src.
Proof.
  unfold obj_assign.
  induction src as [|[k v] src IH]; intros dst Hnd; simpl.
  - now rewrite app_nil_r.
  - assert (Hnotin : ~ In k (map fst dst)).
    { rewrite map_app in Hnd. simpl in Hnd.
      apply NoDup_app in Hnd as (_ & Hdisj & _).
      intros Hin. apply (Hdisj k); [now apply list_elem_of_In|].
      apply list_elem_of_In. now left. }
    rewrite obj_set_fresh by assumption.
    rewrite IH; rewrite <- app_assoc; [reflexivity | exact Hnd].
Qed.

Lemma obj_assign_get (src : Obj) :
  forall dst k,
    NoDup (map fst src) ->
    obj_get (obj_assign dst src) k
      = if obj_has src k then obj_get src k else obj_get dst k.
Proof.
  unfold obj_assign.
  induction src as [|[k' v'] src IH]; intros dst k Hnd; simpl; [reflexivity|].
  simpl in Hnd. apply NoDup_cons in Hnd as [Hnotin Hnd].
  rewrite list_elem_of_In in Hnotin.
  rewrite IH by assumption.
  destruct (String.eqb_spec k' k) as [->|Hne].
  - destruct (obj_has src k) eqn:Hhas.
    + apply obj_has_In in Hhas. contradiction.
    + apply obj_get_set_eq.
  - destruct (obj_has src k); [reflexivity|].
    apply obj_get_set_ne. congruence.
Qed.

(** [{ ...e, ...s }]: the properties of [s] override those of [e]. *)
Lemma spread2_get (e s : Obj) (k : string) :
  obj_get (spread2 (VObj e) (VObj s)) k
    = if obj_has s k then obj_get s k else obj_get e k.
Proof.
  unfold spread2. cbn [own_props].
  rewrite obj_assign_get by apply obj_entries_NoDup.
  rewrite obj_entries_has, obj_entries_get.
  rewrite obj_assign_fresh by apply obj_entries_NoDup.
  cbn [app]. now rewrite obj_entries_get.
Qed.

(** [{ ...s, ...s }] holds the properties of [s], in their order. *)
Lemma spread2_self (s : Obj) :
  spread2 (VObj s) (VObj s) = obj_entries s.
Proof.
  unfold spread2. cbn [own_props].
  rewrite (obj_assign_fresh (obj_entries s) []) by apply obj_entries_NoDup.
  cbn [app].
  apply obj_assign_same. intros k v Hin. split.
  - apply obj_has_In. apply (in_map fst) in Hin. exact Hin.
  - apply obj_get_NoDup_In; [apply obj_entries_NoDup | assumption].
Qed.

End ObjectFacts.

(** ** [merge] *)

Module MergeFacts.
Import Js Async Metadata Notions ObjectFacts.

Lemma switch_case_key (key : string) :
  forall k, case_key (switch_case key) = Some k -> k = key.
Proof.
  unfold switch_case, switch_table. cbn [find fst].
  repeat match goal with
         | |- context [String.eqb ?a key] =>
             destruct (String.eqb_spec a key) as [<-|_];
             [cbn; intros k Hk; congruence|]
         end.
  cbn; intros k Hk; congruence.
Qed.

Lemma find_key_none {A} (k : string) (l : list (string * A)) :
  ~ In k (map fst l) -> find (fun e => String.eqb (fst e) k) l = None.
Proof.
  induction l as [|[k' a] l IH]; simpl; [reflexivity|].
  intros H. destruct (String.eqb_spec k' k); [tauto|]. apply IH. tauto.
Qed.

Lemma switch_case_unknown (key : string) :
  ~ In key known_keys -> switch_case key = CaseDefault.
Proof.
  intros H. unfold switch_case. now rewrite find_key_none.
Qed.

Section Frame.
Context {R : Resolvers}.
Hypothesis mergeTitle_frame : writes_only_title R.

Lemma merge_key_frame (source : Obj) (metadataBase : value)
    (templateStrings : TemplateStrings) (target : Obj) (key k : string) :
  k <> key \/ switch_case key = CaseDefault ->
  obj_get (merge_key source metadataBase templateStrings target key) k
    = obj_get target k /\
  obj_has (merge_key source metadataBase templateStrings target key) k
    = obj_has target k.
Proof.
  intros [Hne | Hdefault].
  2: { unfold merge_key. now rewrite Hdefault. }
  unfold merge_key.
  pose proof (switch_case_key key) as Hkey.
  destruct (switch_case key) eqn:Hcase; cbn in Hkey;
    try (specialize (Hkey _ eq_refl); subst key);
    repeat match goal with
      | |- context [if ?b then _ else _] => destruct b
      end;
    try (destruct (mergeTitle_frame
                     (obj_set target "title" (obj_get source "title"))
                     (tpl_title templateStrings) k Hne) as [-> ->]);
    rewrite ?obj_get_set_ne, ?obj_has_set_ne by assumption;
    auto.
Qed.

Lemma merge_keys_frame (source : Obj) (metadataBase : value)
    (templateStrings : TemplateStrings) (keys : list string) (k : string) :
  forall target,
    (forall key, In key keys -> k <> key \/ switch_case key = CaseDefault) ->
    obj_get (fold_left (merge_key source metadataBase templateStrings)
               keys target) k = obj_get target k /\
    obj_has (fold_left (merge_key source metadataBase templateStrings)
               keys target) k = obj_has target k.
Proof.
  induction keys as [|key keys IH]; intros target Hkeys; simpl; [auto|].
  destruct (IH (merge_key source metadataBase templateStrings target key))
    as [-> ->].
  - intros key' Hin. apply Hkeys. now right.
  - apply merge_key_frame. apply Hkeys. now left.
Qed.

End Frame.

(** C3.  [merge] updates [target] key by key, driven by the keys of
    [source]: a property of [target] whose key is not a key of [source], or
    is not one of the keys that have a [case] label, has after the call the
    value it had before, and is present exactly when it was.  ([mergeTitle],
    whose code is elsewhere, is taken to write the [title] of its argument
    only.) *)
Theorem merge_leaves_other_fields_unchanged (R : Resolvers)
    (target source : Obj) (templateStrings : TemplateStrings) (k : string) :
  writes_only_title R ->
  ~ In k (obj_keys source) \/ ~ In k known_keys ->
  obj_get (merge target source templateStrings) k = obj_get target k /\
  obj_has (merge target source templateStrings) k = obj_has target k.
Proof.
  intros Hframe Hk. unfold merge.
  apply merge_keys_frame; [assumption|].
  intros key Hin.
  destruct (String.eqb_spec k key) as [<-|Hne]; [|now left].
  destruct Hk as [Hk | Hk]; [contradiction|].
  right. now apply switch_case_unknown.
Qed.

Lemma sample_writes_only_title : writes_only_title Samples.sample_resolvers.
Proof.
  intros o template k Hne.
  cbn [mergeTitle Samples.sample_resolvers]. unfold Samples.sample_mergeTitle.
  now rewrite obj_get_set_ne, obj_has_set_ne.
Qed.

Lemma merge_leaves_other_fields_unchanged_witness :
  let target := createDefaultMetadata (Resolvers := Samples.sample_resolvers) in
  let source := [("title", VStr "Docs"); ("viewport", VStr "width=device-width")] in
  let templateStrings :=
    {| tpl_title := VNull; tpl_openGraph := VNull; tpl_twitter := VNull |} in
  obj_get (merge (R := Samples.sample_resolvers) target source templateStrings)
    "description" = obj_get target "description" /\
  obj_has (merge (R := Samples.sample_resolvers) target source templateStrings)
    "description" = obj_has target "description".
Proof.
  intros target source templateStrings.
  apply (merge_leaves_other_fields_unchanged Samples.sample_resolvers
           target source templateStrings "description").
  - apply sample_writes_only_title.
  - left. vm_compute. intros [H | [H | []]]; discriminate H.
Defined.

Section Layers.
Context {R : Resolvers}.

Lemma merge_key_entries (source : Obj) (metadataBase : value)
    (templateStrings : TemplateStrings) (target : Obj) (key : string) :
  merge_key (obj_entries source) metadataBase templateStrings target key
    = merge_key source metadataBase templateStrings target key.
Proof. unfold merge_key. now rewrite !obj_entries_get. Qed.

(** [merge] reads its source through its keys and their values. *)
Lemma merge_entries (target source : Obj) (templateStrings : TemplateStrings) :
  merge target (obj_entries source) templateStrings
    = merge target source templateStrings.
Proof.
  unfold merge. rewrite obj_keys_entries, obj_entries_get.
  generalize (obj_keys source) as keys. intros keys. revert target.
  induction keys as [|key keys IH]; intros target; simpl; [reflexivity|].
  now rewrite merge_key_entries, IH.
Qed.

End Layers.

(** C4.  In a layer of [accumulateMetadata] the static-files metadata takes
    precedence over the exported metadata.  When both are objects, the
    object merged into the accumulated metadata is [{ ...exported, ...static }],
    in which every property of [static] has the value [static] gives it and
    every other property the value [exported] gives it.  When the exported
    metadata is [null], the static-files metadata alone is merged.  When
    both are [null], the accumulated metadata is unchanged.  (The first
    part states where the layer sits in [accumulateMetadata]: it is what the
    chained promise is fulfilled with.) *)
Theorem static_files_metadata_takes_precedence (R : Resolvers)
    (resolved exported static : Obj) :
  (forall v s,
     chain_layer (Fulfilled resolved) (Fulfilled v) s
       = Fulfilled (merge_layer resolved v s)) /\
  (merge_layer resolved (VObj exported) (VObj static)
     = merge resolved (spread2 (VObj exported) (VObj static))
         (stashed_templates resolved) /\
   forall k,
     obj_get (spread2 (VObj exported) (VObj static)) k
       = if obj_has static k then obj_get static k else obj_get exported k) /\
  merge_layer resolved VNull (VObj static)
    = merge resolved static (stashed_templates resolved) /\
  merge_layer resolved VNull VNull = resolved.
Proof.
  repeat split.
  - intros k. apply spread2_get.
  - unfold merge_layer. cbn [js_or truthy].
    now rewrite spread2_self, merge_entries.
Qed.

End MergeFacts.

(** ** [accumulateMetadata] *)

Module AccumulateFacts.
Import Js Async Metadata Fold Notions ObjectFacts.

Section WithResolvers.
Context {R : Resolvers}.

Lemma layer_step_throw (items : MetadataItems) (e : JsError) :
  fold_left layer_step items (Throw e) = Throw e.
Proof. induction items as [|item items IH]; simpl; auto. Qed.

Lemma accumulate_loop_fold (items : MetadataItems) :
  forall parent,
    accumulate_loop items parent = fold_left layer_step items (Normal parent).
Proof.
  induction items as [|[metadataExport static] items IH]; intros parent;
    simpl; [reflexivity|].
  destruct metadataExport as [v | f]; simpl.
  - apply IH.
  - destruct (f parent) as [layer | e].
    + apply IH.
    + now rewrite layer_step_throw.
Qed.

Lemma accumulate_loop_app (prefix rest : MetadataItems) :
  forall start,
    accumulate_loop (prefix ++ rest) start
      = match accumulate_loop prefix start with
        | Normal parent => accumulate_loop rest parent
        | Throw e => Throw e
        end.
Proof.
  induction prefix as [|[metadataExport static] prefix IH]; intros start;
    simpl; [reflexivity|].
  destruct metadataExport as [v | f]; simpl.
  - apply IH.
  - destruct (f start) as [layer | e]; [apply IH | reflexivity].
Qed.

Lemma chain_layer_fulfilled (resolved : Obj) (v static : value) :
  chain_layer (Fulfilled resolved) (Fulfilled v) static
    = Fulfilled (merge_layer resolved v static).
Proof. reflexivity. Qed.

Lemma merge_items_loop (items : MetadataItems) :
  forall resolved r,
    merge_items items resolved = Some r ->
    accumulate_loop items (Fulfilled resolved) = Normal (Fulfilled r).
Proof.
  induction items as [|[metadataExport static] items IH]; intros resolved r;
    simpl.
  - congruence.
  - destruct metadataExport as [v | f]; simpl.
    + apply IH.
    + destruct (f (Fulfilled resolved)) as [layer | e]; [|discriminate].
      destruct (Promise_resolve layer) as [v | e |]; try discriminate.
      apply IH.
Qed.

End WithResolvers.

(** C2.  [accumulateMetadata] goes through the items in list order, parent
    first.  Its result is the left fold of the layer step over the items,
    from a promise of [createDefaultMetadata()].  When the loop reaches an
    item whose export is a function, that function is called with the
    promise accumulated from all earlier items, which is the promise
    [accumulateMetadata] returns for those items alone.  When every
    resolver returns metadata, or a promise that is fulfilled, the result is
    fulfilled with the left fold of [merge] over the items, each resolver
    seeing the metadata merged before it. *)
Theorem accumulateMetadata_is_a_left_fold (R : Resolvers)
    (metadataItems : MetadataItems) :
  accumulateMetadata metadataItems
    = async_return
        (fold_left layer_step metadataItems
           (Normal (Fulfilled createDefaultMetadata))) /\
  (forall prefix f static rest parent,
     metadataItems = prefix ++ (ExportFunction f, static) :: rest ->
     accumulate_loop prefix (Fulfilled createDefaultMetadata) = Normal parent ->
     accumulateMetadata prefix = parent /\
     accumulate_loop metadataItems (Fulfilled createDefaultMetadata)
       = match f parent with
         | Normal layer =>
             accumulate_loop rest
               (chain_layer parent (Promise_resolve layer) static)
         | Throw e => Throw e
         end) /\
  (forall r,
     merge_items metadataItems createDefaultMetadata = Some r ->
     accumulateMetadata metadataItems = Fulfilled r).
Proof.
  unfold accumulateMetadata. cbn [Promise_resolve].
  split; [|split].
  - now rewrite accumulate_loop_fold.
  - intros prefix f static rest parent Hitems Hprefix. split.
    + now rewrite Hprefix.
    + subst metadataItems. rewrite accumulate_loop_app, Hprefix. reflexivity.
  - intros r Hr. now rewrite (merge_items_loop _ _ _ Hr).
Qed.

Lemma accumulateMetadata_is_a_left_fold_witness :
  accumulateMetadata (R := Samples.sample_resolvers) Samples.sample_items
    = Fulfilled
        [("metadataBase", VNull);
         ("title", VObj [("absolute", VStr "Home"); ("template", VNull)]);
         ("description", VStr "static!"); ("keywords", VNull);
         ("openGraph", VNull);
         ("icons", VObj [("icon", VArr [VObj [("url", VStr "/icon.png")]])]);
         ("other", VObj [])].
Proof.
  apply (proj2 (proj2 (accumulateMetadata_is_a_left_fold
                         Samples.sample_resolvers Samples.sample_items))).
  vm_compute. reflexivity.
Defined.

End AccumulateFacts.

(** ** [getDefinedMetadata] *)

Module DefinedMetadataFacts.
Import Js Async Metadata Notions Samples.

Lemma rejected_throws {A} (e : JsError) : throws (@Rejected A e).
Proof. now exists e. Qed.

Lemma fulfilled_not_throws {A} (a : A) : ~ throws (Fulfilled a).
Proof. intros [e He]. discriminate He. Qed.

Lemma sample_client_module_exports_both : exports_both sample_client_module.
Proof.
  split.
  - unfold exports. cbn. discriminate.
  - unfold exports_function. cbn. eauto.
Qed.

(** C1, as stated, fails: a client reference that exports both [metadata]
    and [generateMetadata] is skipped, and the call does not throw. *)
Lemma both_exports_client_reference_does_not_throw :
  exports_both sample_client_module /\
  ~ throws (getDefinedMetadata (R := sample_resolvers)
              sample_client_module VUndefined).
Proof.
  split; [apply sample_client_module_exports_both|].
  cbn. apply fulfilled_not_throws.
Qed.

(** C1, amended.  [getDefinedMetadata] throws exactly for the modules that
    are not client references and whose [metadata] and [generateMetadata]
    are both truthy; for every other module, so for one with at most one of
    the two, it does not throw. *)
Theorem getDefinedMetadata_throws_iff (R : Resolvers) (module : Module)
    (props : value) :
  throws (getDefinedMetadata module props) <->
  isClientReference module = false /\ both_truthy module = true.
Proof.
  unfold getDefinedMetadata, both_truthy.
  destruct (isClientReference module).
  - split; [intros H; now apply fulfilled_not_throws in H | intros [H _]; discriminate].
  - destruct (prop_truthy (mod_get module "metadata")
              && prop_truthy (mod_get module "generateMetadata")).
    + split; [auto | intros _; apply rejected_throws].
    + split; [intros H; now apply fulfilled_not_throws in H | intros [_ H]; discriminate].
Qed.

Lemma getDefinedMetadata_throws_iff_witness :
  throws (getDefinedMetadata (R := sample_resolvers) sample_both_module VUndefined)
  /\ ~ throws (getDefinedMetadata (R := sample_resolvers) sample_static_module
                 VUndefined).
Proof.
  split.
  - apply (proj2 (getDefinedMetadata_throws_iff sample_resolvers
                    sample_both_module VUndefined)).
    split; reflexivity.
  - intros H.
    apply (proj1 (getDefinedMetadata_throws_iff sample_resolvers
                    sample_static_module VUndefined)) in H.
    destruct H as [_ H]. vm_compute in H. discriminate H.
Defined.

(** C9.  For a client reference [getDefinedMetadata] returns [null] and does
    not throw, whatever the module exports: the client-reference test comes
    before the test on the two exports. *)
Theorem getDefinedMetadata_client_reference (R : Resolvers) (module : Module)
    (props : value) :
  isClientReference module = true ->
  getDefinedMetadata module props = Fulfilled (ExportValue VNull) /\
  ~ throws (getDefinedMetadata module props).
Proof.
  intros H. unfold getDefinedMetadata. rewrite H.
  split; [reflexivity | apply fulfilled_not_throws].
Qed.

Lemma getDefinedMetadata_client_reference_witness :
  both_truthy sample_client_module = true /\
  getDefinedMetadata (R := sample_resolvers) sample_client_module VUndefined
    = Fulfilled (ExportValue VNull).
Proof.
  split; [reflexivity|].
  apply (getDefinedMetadata_client_reference sample_resolvers
           sample_client_module VUndefined).
  reflexivity.
Defined.

End DefinedMetadataFacts.

(** ** The matcher *)

Module RegexFacts.
Import Text Notions.

Lemma matches_binds (total : nat) (r : regex) :
  forall s caps rest caps',
    In (rest, caps') (matches total r s caps) ->
    forall n, In n (binds r) \/ bound caps n -> bound caps' n.
Proof.
  induction r as [l | | | g r1 IH1 | r1 IH1 r2 IH2 | r1 IH1 r2 IH2 | ];
    intros s caps rest caps' Hin n Hn; simpl in Hin, Hn.
  - destruct (strip_prefix l s); simpl in Hin; [|intuition].
    destruct Hin as [Heq | []]. inversion Heq; subst. intuition.
  - destruct s as [|c s']; simpl in Hin; [intuition|].
    destruct (is_line_terminator c); simpl in Hin; [intuition|].
    destruct Hin as [Heq | []]. inversion Heq; subst. intuition.
  - apply in_map_iff in Hin as [x [Heq _]]. inversion Heq; subst. intuition.
  - apply in_map_iff in Hin as [[rest1 caps1] [Heq Hin]].
    simpl in Heq. inversion Heq; subst. unfold bound. simpl.
    destruct Hn as [[<- | Hn] | Hn]; [now left | right | right].
    + apply (IH1 _ _ _ _ Hin). now left.
    + apply (IH1 _ _ _ _ Hin). now right.
  - apply in_flat_map in Hin as [[rest1 caps1] [Hin1 Hin2]]. simpl in Hin2.
    apply (IH2 _ _ _ _ Hin2).
    destruct Hn as [Hn | Hn].
    + apply in_app_or in Hn as [Hn | Hn]; [right | now left].
      apply (IH1 _ _ _ _ Hin1). now left.
    + right. apply (IH1 _ _ _ _ Hin1). now right.
  - destruct Hn as [[] | Hn].
    apply in_app_or in Hin as [Hin | Hin].
    + apply (IH1 _ _ _ _ Hin). now right.
    + apply (IH2 _ _ _ _ Hin). now right.
  - destruct (Nat.eqb (String.length s) total); simpl in Hin; [|intuition].
    destruct Hin as [Heq | []]. inversion Heq; subst. intuition.
Qed.

Lemma search_binds (total : nat) (r : regex) :
  forall s m,
    search total r s = Some m ->
    forall n, In n (binds r) -> bound (captures m) n.
Proof.
  induction s as [|c s IH]; intros m Hm n Hn; simpl in Hm.
  - destruct (matches total r EmptyString []) as [|[rest caps] ms] eqn:E;
      [discriminate|].
    inversion Hm; subst; simpl.
    apply (matches_binds total r EmptyString [] rest caps); [|now left].
    rewrite E. now left.
  - destruct (matches total r (String c s) []) as [|[rest caps] ms] eqn:E.
    + now apply (IH m).
    + inversion Hm; subst; simpl.
      apply (matches_binds total r (String c s) [] rest caps); [|now left].
      rewrite E. now left.
Qed.

Lemma bound_group (m : MatchResult) (n : nat) :
  bound (captures m) n -> exists s, group m n = Some s.
Proof.
  unfold bound, group. generalize (captures m) as caps.
  induction caps as [|[n' s'] caps IH]; simpl; [tauto|].
  intros [-> | Hin].
  - rewrite Nat.eqb_refl. eauto.
  - destruct (Nat.eqb n' n); eauto.
Qed.

(** A group outside every alternation has a capture in each match. *)
Lemma str_match_group (str : string) (re : regex) (m : MatchResult) (n : nat) :
  str_match str re = Some m -> In n (binds re) -> exists s, group m n = Some s.
Proof.
  intros Hm Hn. apply bound_group. exact (search_binds _ _ _ _ Hm n Hn).
Qed.

End RegexFacts.

(** ** The diagnostic formatter never throws *)

Module DiagnosticFacts.
Import Async Text Diagnostics Notions RegexFacts.

Section WithEnvironment.
Context {E : Environment}.

Lemma case_2322_normal (type : string) (indent : nat)
    (item : DiagnosticMessageChain) (main : string) :
  exists main', case_2322 type indent item main = Normal main'.
Proof.
  unfold case_2322.
  destruct (str_match (chain_messageText item) re_not_assignable)
    as [types|] eqn:Hm; [|eauto].
  destruct (is_string (group types 2) "PageComponent"
            || is_string (group types 2) "LayoutComponent"); [eauto|].
  destruct (str_match_group _ _ _ 2 Hm) as [expected ->]; [|eauto].
  cbn. tauto.
Qed.

Lemma process_item_code_normal (type : string) (indent : nat)
    (item : DiagnosticMessageChain) (main : string) :
  exists main', process_item_code type indent item main = Normal main'.
Proof.
  unfold process_item_code, case_2200, case_2326, case_2739, case_2559,
    case_2741.
  repeat match goal with
         | |- context [if ?b then _ else _] => destruct b
         | |- context [match str_match ?a ?b with _ => _ end] =>
             destruct (str_match a b)
         end;
    eauto using case_2322_normal.
Qed.

Lemma process_item_normal :
  forall (item : DiagnosticMessageChain) (type : string) (indent : nat)
         (main : string),
    exists main', process_item type indent item main = Normal main'.
Proof.
  fix IH 1. intros [t c k next] type indent main.
  cbn [process_item].
  destruct (process_item_code_normal type indent (MkChain t c k next) main)
    as [main1 ->].
  destruct next as [items|]; [|eauto].
  revert main1.
  induction items as [|i rest IHrest]; intros main1; [eauto|].
  destruct (IH i type (S indent) main1) as [main2 ->].
  apply IHrest.
Qed.

Lemma processNext_normal (type : string) (indent : nat)
    (next : option (list DiagnosticMessageChain)) (main : string) :
  exists main', processNext type indent next main = Normal main'.
Proof.
  unfold processNext. destruct next as [items|]; [|eauto].
  revert main. induction items as [|i rest IH]; intros main; simpl; [eauto|].
  destruct (process_item_normal i type indent main) as [main1 ->].
  apply IH.
Qed.

(** [getFormattedLayoutAndPageDiagnosticMessageText] returns normally. *)
Lemma layout_and_page_text_normal (baseDir : string) (diagnostic : Diagnostic) :
  exists r,
    getFormattedLayoutAndPageDiagnosticMessageText baseDir diagnostic = Normal r.
Proof.
  unfold getFormattedLayoutAndPageDiagnosticMessageText.
  destruct (messageText diagnostic) as [s | message]; [eauto|].
  destruct (negb _); [|eauto].
  destruct (chain_code message =? 2344)%Z.
  - destruct (str_match _ re_filepath_and_type); [|eauto].
    match goal with
    | |- context [processNext ?t ?i ?n ?m] =>
        destruct (processNext_normal t i n m) as [main ->]
    end.
    eauto.
  - destruct (chain_code message =? 2345)%Z; [|eauto].
    destruct (str_match _ re_filepath_and_invalid_export); eauto.
Qed.

Lemma base_message_normal (ts : TypeScript) (baseDir distDir : string)
    (diagnostic : Diagnostic) (isAppDirEnabled : option bool) :
  exists message,
    base_message ts baseDir distDir diagnostic isAppDirEnabled = Normal message.
Proof.
  unfold base_message.
  destruct (negb _ && _).
  - destruct (layout_and_page_text_normal baseDir diagnostic) as [r ->]. eauto.
  - eauto.
Qed.

End WithEnvironment.

(** C5.  When the link patterns give no message and the layout/page
    patterns give none either (the diagnostic is not a layout or page error,
    or [getFormattedLayoutAndPageDiagnosticMessageText] returns
    [undefined]), the reason is
    [ts.flattenDiagnosticMessageText(diagnostic.messageText, '\n')] and
    [getFormattedDiagnostic] returns its string: nothing is thrown. *)
Theorem getFormattedDiagnostic_default_reason (E : Environment)
    (ts : TypeScript) (baseDir distDir : string) (diagnostic : Diagnostic)
    (isAppDirEnabled : option bool) :
  getFormattedLinkDiagnosticMessageText diagnostic = None ->
  isLayoutOrPageError baseDir distDir diagnostic isAppDirEnabled = false \/
  getFormattedLayoutAndPageDiagnosticMessageText baseDir diagnostic
    = Normal None ->
  let message :=
    category_label (category diagnostic) +:+
    flattenDiagnosticMessageText ts (messageText diagnostic) nl +:+ nl in
  base_message ts baseDir distDir diagnostic isAppDirEnabled = Normal message /\
  getFormattedDiagnostic ts baseDir distDir diagnostic isAppDirEnabled
    = Fulfilled
        match file diagnostic with
        | Some f =>
            if negb (isLayoutOrPageError baseDir distDir diagnostic
                       isAppDirEnabled)
            then with_location baseDir f (start diagnostic) message
            else message
        | None => message
        end.
Proof.
  intros Hlink Hlayout message.
  assert (Hbase : base_message ts baseDir distDir diagnostic isAppDirEnabled
                  = Normal message).
  { unfold base_message. rewrite Hlink. cbn [is_truthy_string negb andb].
    destruct Hlayout as [-> | Hlayout]; [reflexivity|].
    rewrite Hlayout. now destruct (isLayoutOrPageError _ _ _ _). }
  split; [exact Hbase|].
  unfold getFormattedDiagnostic. rewrite Hbase.
  destruct (file diagnostic) as [f|]; [|reflexivity].
  now destruct (negb _).
Qed.

Lemma getFormattedDiagnostic_default_reason_witness :
  let message :=
    category_label (E := Samples.sample_environment) 1 +:+
    "Type 'number' is not assignable to type 'string'." +:+ nl in
  getFormattedDiagnostic (E := Samples.sample_environment) Samples.sample_ts
    "/repo" ".next" Samples.sample_diagnostic None
    = Fulfilled
        (with_location (E := Samples.sample_environment) "/repo"
           Samples.sample_file (Some 7%Z) message).
Proof.
  intros message.
  apply (getFormattedDiagnostic_default_reason Samples.sample_environment
           Samples.sample_ts "/repo" ".next" Samples.sample_diagnostic None).
  - vm_compute. reflexivity.
  - left. reflexivity.
Defined.

(** C6, on the code.  For a message about a [string] that is no route
    literal, neither described pattern matches, yet the function rewrites
    the message, with the capture [undefined]: in the source the [|] of the
    union type is not escaped, so each pattern is an alternation whose
    second branch, [ URL'.] or [ Route<string>'.], has no group. *)
Theorem link_text_rewritten_without_href (E : Environment) :
  let message :=
    "Type 'string' is not assignable to type 'Route<string> | URL'." in
  messageText Samples.sample_string_href_diagnostic = inl message /\
  code Samples.sample_string_href_diagnostic = 2322%Z /\
  str_match message described_route_url = None /\
  str_match message described_url_route = None /\
  getFormattedLinkDiagnosticMessageText Samples.sample_string_href_diagnostic
    = Some (link_text None).
Proof.
  cbv zeta. repeat split; vm_compute; reflexivity.
Qed.

(** X25.  The function rewrites nothing unless the code is 2322 and the
    message text is a string. *)
Lemma link_text_only_for_2322_strings (E : Environment)
    (diagnostic : Diagnostic) (reason : string) :
  getFormattedLinkDiagnosticMessageText diagnostic = Some reason ->
  code diagnostic = 2322%Z /\ exists message, messageText diagnostic = inl message.
Proof.
  unfold getFormattedLinkDiagnosticMessageText.
  destruct (messageText diagnostic) as [message | chain]; [|discriminate].
  destruct (Z.eqb_spec (code diagnostic) 2322); [|discriminate].
  intros _. split; [assumption | now exists message].
Qed.

(** On a message of the described form the capture is the href. *)
Example link_text_for_route_literal (E : Environment) :
  getFormattedLinkDiagnosticMessageText
    {| category := 1; code := 2322; file := None; start := None;
       messageText :=
         inl ("Type '" +:+ quoted "/blog" +:+
              "' is not assignable to type 'Route<string> | URL'.") |}
    = Some (link_text (Some "/blog")).
Proof. reflexivity. Qed.

(** C7.  [getFormattedDiagnostic] returns a string.  For a diagnostic that
    has a file and is not a layout or page error of the types directory, the
    string is the message with, in front, the line
    [fileName:line:character], both counted from 1, and, after a line feed,
    the code frame of the file at that position.  For a layout or page error
    and for a diagnostic without a file the string is the message alone. *)
Theorem getFormattedDiagnostic_location (E : Environment)
    (ts : TypeScript) (baseDir distDir : string) (diagnostic : Diagnostic)
    (isAppDirEnabled : option bool) :
  exists message,
    base_message ts baseDir distDir diagnostic isAppDirEnabled
      = Normal message /\
    (forall f,
       file diagnostic = Some f ->
       isLayoutOrPageError baseDir distDir diagnostic isAppDirEnabled = false ->
       let pos := getLineAndCharacterOfPosition f (start diagnostic) in
       let line := (fst pos + 1)%Z in
       let character := (snd pos + 1)%Z in
       getFormattedDiagnostic ts baseDir distDir diagnostic isAppDirEnabled
         = Fulfilled
             ((chalk_cyan (shown_fileName baseDir f) +:+ ":" +:+
               chalk_yellow (Js.number_to_string line) +:+ ":" +:+
               chalk_yellow (Js.number_to_string character) +:+ nl +:+
               message)
              +:+ nl +:+ codeFrameColumns (fullText f) line character)) /\
    (file diagnostic = None \/
     isLayoutOrPageError baseDir distDir diagnostic isAppDirEnabled = true ->
     getFormattedDiagnostic ts baseDir distDir diagnostic isAppDirEnabled
       = Fulfilled message).
Proof.
  destruct (base_message_normal ts baseDir distDir diagnostic isAppDirEnabled)
    as [message Hbase].
  exists message. split; [exact Hbase|].
  unfold getFormattedDiagnostic. rewrite Hbase. split.
  - intros f Hfile Hlayout. rewrite Hfile, Hlayout. reflexivity.
  - intros [Hfile | Hlayout].
    + now rewrite Hfile.
    + rewrite Hlayout. now destruct (file diagnostic).
Qed.

Lemma getFormattedDiagnostic_location_witness :
  (exists rest,
     getFormattedDiagnostic (E := Samples.sample_environment) Samples.sample_ts
       "/repo" ".next" Samples.sample_diagnostic None
     = Fulfilled
         ("<cyan>./app/page.tsx</cyan>:<yellow>3</yellow>:<yellow>5</yellow>"
          +:+ rest)) /\
  (exists message,
     getFormattedDiagnostic (E := Samples.sample_environment) Samples.sample_ts
       "/repo" ".next" Samples.sample_layout_diagnostic (Some true)
     = Fulfilled message /\
     base_message (E := Samples.sample_environment) Samples.sample_ts
       "/repo" ".next" Samples.sample_layout_diagnostic (Some true)
     = Normal message).
Proof.
  split.
  - destruct (getFormattedDiagnostic_location Samples.sample_environment
                Samples.sample_ts "/repo" ".next" Samples.sample_diagnostic None)
      as [message [_ [Hfile _]]].
    specialize (Hfile Samples.sample_file eq_refl eq_refl).
    cbv zeta in Hfile. rewrite Hfile.
    eexists. vm_compute. reflexivity.
  - destruct (getFormattedDiagnostic_location Samples.sample_environment
                Samples.sample_ts "/repo" ".next"
                Samples.sample_layout_diagnostic (Some true))
      as [message [Hbase [_ Hplain]]].
    exists message. split; [|exact Hbase].
    apply Hplain. right. vm_compute. reflexivity.
Defined.

End DiagnosticFacts.

(** ** [createInitialRouterState] *)

Module RouterFacts.
Import Router.

Section InitialState.
Context {FlightRouterState ReactNode ChildSegmentMap PrefetchEntry CacheData
         Location CacheStates : Type}.
Context (READY : CacheStates) (createHrefFromUrl : Location -> string).

(** C8.  [createInitialRouterState] builds its result from its parameters:
    [tree] is [initialTree], [cache.subTreeData] is [children], [cache.data]
    is [null], [prefetchCache] is an empty map, and [canonicalUrl] is
    [createHrefFromUrl(location)] for a [location], [initialCanonicalUrl]
    when [location] is [null]. *)
Theorem createInitialRouterState_fields
    (params : @InitialRouterStateParameters FlightRouterState ReactNode
                ChildSegmentMap Location) :
  let state : @RouterState FlightRouterState ReactNode ChildSegmentMap
                PrefetchEntry CacheData CacheStates :=
    createInitialRouterState READY createHrefFromUrl params in
  tree state = initialTree params /\
  subTreeData (cache state) = children params /\
  data (cache state) = None /\
  prefetchCache state = ∅ /\
  canonicalUrl state
    = match location params with
      | Some l => createHrefFromUrl l
      | None => initialCanonicalUrl params
      end.
Proof. cbv zeta. repeat split. Qed.

(** C10.  In every state [createInitialRouterState] builds, [cache.status]
    is [CacheStates.READY], [pushRef.pendingPush], [pushRef.mpaNavigation]
    and [focusAndScrollRef.apply] are [false], and [cache.parallelRoutes] is
    an empty map on the server, whatever [initialParallelRoutes] is, and
    [initialParallelRoutes] otherwise. *)
Theorem createInitialRouterState_invariant
    (params : @InitialRouterStateParameters FlightRouterState ReactNode
                ChildSegmentMap Location) :
  let state : @RouterState FlightRouterState ReactNode ChildSegmentMap
                PrefetchEntry CacheData CacheStates :=
    createInitialRouterState READY createHrefFromUrl params in
  status (cache state) = READY /\
  pendingPush (pushRef state) = false /\
  mpaNavigation (pushRef state) = false /\
  apply (focusAndScrollRef state) = false /\
  parallelRoutes (cache state)
    = if isServer params then ∅ else initialParallelRoutes params.
Proof. cbv zeta. repeat split. Qed.

End InitialState.

End RouterFacts.

(** ** More on [merge] *)

Module MergeMore.
Import Js Async Metadata Notions ObjectFacts MergeFacts.

Section WithResolvers.
Context {R : Resolvers}.

Lemma switch_case_title : switch_case "title" = CaseTitle.
Proof. reflexivity. Qed.

Lemma obj_keys_NoDup (o : Obj) : NoDup (obj_keys o).
Proof. apply obj_entries_NoDup. Qed.

(** A turn of the loop for a key without a [case] label does nothing. *)
Lemma merge_key_unknown (source : Obj) (metadataBase : value)
    (templateStrings : TemplateStrings) (target : Obj) (key : string) :
  ~ In key known_keys ->
  merge_key source metadataBase templateStrings target key = target.
Proof.
  intros H. unfold merge_key. now rewrite switch_case_unknown.
Qed.

(** With a falsy [source.title] no turn of the loop touches [title]. *)
Lemma merge_key_keeps_title (source : Obj) (metadataBase : value)
    (templateStrings : TemplateStrings) (target : Obj) (key : string) :
  truthy (obj_get source "title") = false ->
  obj_get (merge_key source metadataBase templateStrings target key) "title"
    = obj_get target "title" /\
  obj_has (merge_key source metadataBase templateStrings target key) "title"
    = obj_has target "title".
Proof.
  intros Hfalsy. unfold merge_key.
  pose proof (switch_case_key key) as Hkey.
  destruct (switch_case key) eqn:Hcase; cbn in Hkey;
    try (specialize (Hkey _ eq_refl); subst key);
    try rewrite Hfalsy;
    repeat match goal with
      | |- context [if ?b then _ else _] => destruct b
      end;
    try (rewrite ?obj_get_set_ne, ?obj_has_set_ne by discriminate; now auto).
  all: assert (Hne : "title" <> key)
         by (intros <-; rewrite switch_case_title in Hcase; discriminate).
  all: now rewrite obj_get_set_ne, obj_has_set_ne.
Qed.

Section Frame.
Hypothesis mergeTitle_frame : writes_only_title R.

(** The value [merge] leaves under a key of the source is the one the turn
    for that key assigned, and that turn found under the key what [target]
    had there. *)
Lemma merge_at_key (target source : Obj) (templateStrings : TemplateStrings)
    (k : string) :
  In k (obj_keys source) ->
  exists before,
    obj_get before k = obj_get target k /\
    obj_get (merge target source templateStrings) k
      = obj_get (merge_key source (js_or (obj_get source "metadataBase") VNull)
                   templateStrings before k) k /\
    obj_has (merge target source templateStrings) k
      = obj_has (merge_key source (js_or (obj_get source "metadataBase") VNull)
                   templateStrings before k) k.
Proof.
  intros Hin. unfold merge.
  pose proof (obj_keys_NoDup source) as Hnd.
  set (metadataBase := js_or (obj_get source "metadataBase") VNull).
  destruct (in_split _ _ Hin) as [pre [post Hsplit]].
  rewrite Hsplit in Hnd |- *.
  apply NoDup_app in Hnd as (_ & Hdisj & Hnd').
  apply NoDup_cons in Hnd' as [Hpost _].
  rewrite fold_left_app. cbn [fold_left].
  exists (fold_left (merge_key source metadataBase templateStrings) pre target).
  split; [|split].
  - apply merge_keys_frame; [assumption|].
    intros key Hkey. left. intros <-.
    apply (Hdisj k); [now apply list_elem_of_In | left].
  - apply merge_keys_frame; [assumption|].
    intros key Hkey. left. intros <-. apply Hpost. now apply list_elem_of_In.
  - apply merge_keys_frame; [assumption|].
    intros key Hkey. left. intros <-. apply Hpost. now apply list_elem_of_In.
Qed.

Lemma merge_direct_field_value (target source : Obj)
    (templateStrings : TemplateStrings) (k : string) :
  In k (obj_keys source) ->
  switch_case k = CaseDirectField ->
  obj_get (merge target source templateStrings) k
    = js_or (obj_get source k) VNull /\
  obj_has (merge target source templateStrings) k = true.
Proof.
  intros Hin Hcase.
  destruct (merge_at_key target source templateStrings k Hin)
    as [before [_ [-> ->]]].
  unfold merge_key. rewrite Hcase.
  now rewrite obj_get_set_eq, obj_has_set_eq.
Qed.

Lemma merge_array_field_value (target source : Obj)
    (templateStrings : TemplateStrings) (k : string) :
  In k (obj_keys source) ->
  switch_case k = CaseArrayField ->
  obj_get (merge target source templateStrings) k
    = js_or (resolveAsArrayOrUndefined (obj_get source k)) VNull.
Proof.
  intros Hin Hcase.
  destruct (merge_at_key target source templateStrings k Hin)
    as [before [_ [-> _]]].
  unfold merge_key. rewrite Hcase. apply obj_get_set_eq.
Qed.

End Frame.

End WithResolvers.

(** X1.  A source none of whose keys has a [case] label -- the empty object
    among them -- leaves the target as it was. *)
Theorem merge_without_known_keys (R : Resolvers) (target source : Obj)
    (templateStrings : TemplateStrings) :
  (forall key, In key (obj_keys source) -> ~ In key known_keys) ->
  merge target source templateStrings = target.
Proof.
  unfold merge. generalize (obj_keys source) as keys.
  induction keys as [|key keys IH]; intros Hkeys; cbn [fold_left];
    [reflexivity|].
  rewrite merge_key_unknown by (apply Hkeys; now left).
  apply IH. intros key' Hin. apply Hkeys. now right.
Qed.

Lemma merge_without_known_keys_witness :
  merge (R := Samples.sample_resolvers)
    [("title", VStr "Home")] [("robot", VStr "index"); ("x-note", VNum 1)]
    {| tpl_title := VNull; tpl_openGraph := VNull; tpl_twitter := VNull |}
  = [("title", VStr "Home")].
Proof.
  apply (merge_without_known_keys Samples.sample_resolvers).
  vm_compute. intros key [<- | [<- | []]] H;
    repeat (destruct H as [H | H]; [discriminate H|]); exact H.
Defined.

(** X2.  A field that [merge] assigns directly (such as [description]) and
    that is a key of the source has, after the call, the value the source
    gives it, or [null] when that value is falsy: a key present with the
    value [undefined] resets what the target had.  A field assigned as an
    array (such as [keywords]) has
    [resolveAsArrayOrUndefined(source[key]) || null].  ([mergeTitle] is
    taken to write the [title] of its argument only.) *)
Theorem merge_assigns_fields_from_source (R : Resolvers)
    (target source : Obj) (templateStrings : TemplateStrings) (k : string) :
  writes_only_title R ->
  In k (obj_keys source) ->
  (switch_case k = CaseDirectField ->
   obj_get (merge target source templateStrings) k
     = js_or (obj_get source k) VNull /\
   obj_has (merge target source templateStrings) k = true) /\
  (switch_case k = CaseArrayField ->
   obj_get (merge target source templateStrings) k
     = js_or (resolveAsArrayOrUndefined (obj_get source k)) VNull).
Proof.
  intros Hframe Hin. split; intros Hcase.
  - now apply merge_direct_field_value.
  - now apply merge_array_field_value.
Qed.

Lemma merge_assigns_fields_from_source_witness :
  obj_get
    (merge (R := Samples.sample_resolvers)
       [("description", VStr "parent"); ("keywords", VNull)]
       [("description", VUndefined); ("keywords", VStr "a")]
       {| tpl_title := VNull; tpl_openGraph := VNull; tpl_twitter := VNull |})
    "description" = VNull.
Proof.
  refine (proj1 (proj1 (merge_assigns_fields_from_source
                          Samples.sample_resolvers
                          [("description", VStr "parent"); ("keywords", VNull)]
                          [("description", VUndefined); ("keywords", VStr "a")]
                          _ "description" sample_writes_only_title _)
                   eq_refl)).
  vm_compute. now left.
Defined.

(** X3.  A source whose [title] is falsy (missing, [null], the empty
    string) does not touch the title of the target, whatever else it
    holds. *)
Theorem merge_falsy_title_keeps_title (R : Resolvers)
    (target source : Obj) (templateStrings : TemplateStrings) :
  truthy (obj_get source "title") = false ->
  obj_get (merge target source templateStrings) "title"
    = obj_get target "title" /\
  obj_has (merge target source templateStrings) "title"
    = obj_has target "title".
Proof.
  intros Hfalsy. unfold merge. generalize (obj_keys source) as keys.
  intros keys. revert target.
  induction keys as [|key keys IH]; intros target; cbn [fold_left]; [auto|].
  destruct (IH (merge_key source (js_or (obj_get source "metadataBase") VNull)
                  templateStrings target key)) as [-> ->].
  now apply merge_key_keeps_title.
Qed.

Lemma merge_falsy_title_keeps_title_witness :
  obj_get
    (merge (R := Samples.sample_resolvers)
       [("title", VObj [("absolute", VStr "Home"); ("template", VNull)])]
       [("title", VStr EmptyString); ("description", VStr "d")]
       {| tpl_title := VNull; tpl_openGraph := VNull; tpl_twitter := VNull |})
    "title" = VObj [("absolute", VStr "Home"); ("template", VNull)].
Proof.
  apply (merge_falsy_title_keeps_title Samples.sample_resolvers
           [("title", VObj [("absolute", VStr "Home"); ("template", VNull)])]
           [("title", VStr EmptyString); ("description", VStr "d")]).
  reflexivity.
Defined.

(** X4.  [other] is merged, not replaced: when the source has the key
    [other] and both hold an object there, the target's [other] afterwards
    holds every property of the source's, and the properties of its own that
    the source does not name.  ([mergeTitle] is taken to write the [title]
    of its argument only.) *)
Theorem merge_other_is_accumulated (R : Resolvers)
    (target source other_before other_source : Obj)
    (templateStrings : TemplateStrings) :
  writes_only_title R ->
  In "other" (obj_keys source) ->
  obj_get target "other" = VObj other_before ->
  obj_get source "other" = VObj other_source ->
  exists merged,
    obj_get (merge target source templateStrings) "other" = VObj merged /\
    forall k,
      obj_get merged k
        = if obj_has other_source k then obj_get other_source k
          else obj_get other_before k.
Proof.
  intros Hframe Hin Hbefore Hsource.
  destruct (merge_at_key Hframe target source templateStrings "other" Hin)
    as [before [Hsame [-> _]]].
  unfold merge_key. cbn [switch_case switch_table find fst String.eqb].
  change (switch_case "other") with CaseOther. cbn iota.
  rewrite obj_get_set_eq, Hsame, Hbefore, Hsource.
  eexists. split; [reflexivity|].
  intros k. apply spread2_get.
Qed.

Lemma merge_other_is_accumulated_witness :
  exists merged,
    obj_get
      (merge (R := Samples.sample_resolvers)
         [("other", VObj [("a", VNum 1); ("b", VNum 2)])]
         [("other", VObj [("b", VNum 3)])]
         {| tpl_title := VNull; tpl_openGraph := VNull; tpl_twitter := VNull |})
      "other" = VObj merged /\
    obj_get merged "a" = VNum 1 /\ obj_get merged "b" = VNum 3.
Proof.
  destruct (merge_other_is_accumulated Samples.sample_resolvers
              [("other", VObj [("a", VNum 1); ("b", VNum 2)])]
              [("other", VObj [("b", VNum 3)])]
              [("a", VNum 1); ("b", VNum 2)] [("b", VNum 3)]
              {| tpl_title := VNull; tpl_openGraph := VNull;
                 tpl_twitter := VNull |}
              sample_writes_only_title)
    as [merged [Hmerged Hget]].
  - vm_compute. now left.
  - reflexivity.
  - reflexivity.
  - exists merged. split; [exact Hmerged|].
    split; [apply (Hget "a") | apply (Hget "b")].
Defined.

End MergeMore.

(** ** More on [accumulateMetadata] *)

Module AccumulateMore.
Import Js Async Metadata Fold Notions Notions2 ObjectFacts MergeFacts MergeMore
       AccumulateFacts.

Section WithResolvers.
Context {R : Resolvers}.

(** A layer with nothing to merge hands the parent promise on. *)
Lemma chain_layer_nothing (parent : Promise Obj) (v static : value) :
  truthy v = false -> truthy static = false ->
  chain_layer parent (Fulfilled v) static = parent.
Proof.
  intros Hv Hs. destruct parent as [resolved | e |]; cbn; [|reflexivity..].
  unfold merge_layer, js_or. now rewrite Hv, Hs.
Qed.

Lemma accumulate_loop_skip (pre post : MetadataItems) (v static : value)
    (start : Promise Obj) :
  truthy v = false -> truthy static = false ->
  accumulate_loop (pre ++ (ExportValue v, static) :: post) start
    = accumulate_loop (pre ++ post) start.
Proof.
  intros Hv Hs. rewrite !accumulate_loop_app.
  destruct (accumulate_loop pre start) as [parent | e]; [|reflexivity].
  cbn [accumulate_loop Promise_resolve].
  now rewrite chain_layer_nothing.
Qed.

Lemma merge_items_app (a b : MetadataItems) :
  forall resolved,
    merge_items (a ++ b) resolved
      = match merge_items a resolved with
        | Some r => merge_items b r
        | None => None
        end.
Proof.
  induction a as [|[metadataExport static] a IH]; intros resolved; simpl;
    [reflexivity|].
  destruct (exported_by resolved metadataExport); [apply IH | reflexivity].
Qed.



End WithResolvers.

(** X5.  A layer that has neither exported nor static-files metadata (both
    [null], as [collectMetadata] records a layout without metadata) is
    transparent: the result is the one for the list without it. *)
Theorem accumulateMetadata_skips_empty_layers (R : Resolvers)
    (pre post : MetadataItems) (v static : value) :
  truthy v = false -> truthy static = false ->
  accumulateMetadata (pre ++ (ExportValue v, static) :: post)
    = accumulateMetadata (pre ++ post).
Proof.
  intros Hv Hs. unfold accumulateMetadata.
  now rewrite accumulate_loop_skip.
Qed.

Lemma accumulateMetadata_skips_empty_layers_witness :
  accumulateMetadata (R := Samples.sample_resolvers)
    ([(ExportValue Samples.sample_metadata, VNull)]
     ++ (ExportValue VNull, VNull)
     :: [(ExportFunction Samples.sample_resolver, Samples.sample_icons)])
  = accumulateMetadata (R := Samples.sample_resolvers) Samples.sample_items.
Proof.
  apply (accumulateMetadata_skips_empty_layers Samples.sample_resolvers
           [(ExportValue Samples.sample_metadata, VNull)]
           [(ExportFunction Samples.sample_resolver, Samples.sample_icons)]
           VNull VNull); reflexivity.
Defined.





(** X8.  When the loop reaches a resolver that throws as it is called,
    [accumulateMetadata] is rejected with what it threw, whatever the
    promise accumulated so far -- an earlier rejection included -- and
    whatever follows in the list. *)
Theorem accumulateMetadata_resolver_throws (R : Resolvers)
    (prefix rest : MetadataItems) (f : MetadataResolver) (static : value)
    (parent : Promise Obj) (e : JsError) :
  accumulate_loop prefix (Fulfilled createDefaultMetadata) = Normal parent ->
  f parent = Throw e ->
  accumulateMetadata (prefix ++ (ExportFunction f, static) :: rest)
    = Rejected e.
Proof.
  intros Hprefix Hthrow. unfold accumulateMetadata. cbn [Promise_resolve].
  rewrite accumulate_loop_app, Hprefix. cbn [accumulate_loop].
  now rewrite Hthrow.
Qed.

Lemma accumulateMetadata_resolver_throws_witness :
  accumulateMetadata (R := Samples.sample_resolvers)
    ([(ExportFunction
         (fun _ => Normal (RetPromise (Rejected (MkError "fetch failed")))),
       VNull)]
     ++ (ExportFunction (fun _ => Throw (MkTypeError "x is not a function")),
         VNull)
     :: Samples.sample_items)
  = Rejected (MkTypeError "x is not a function").
Proof.
  eapply (accumulateMetadata_resolver_throws Samples.sample_resolvers
            [(ExportFunction
                (fun _ => Normal (RetPromise (Rejected (MkError "fetch failed")))),
              VNull)]); reflexivity.
Defined.

(** X9.  The last layer decides the fields it names: when the layers before
    are merged into [resolved] and the last item exports an object, without
    static files, the result has, under every directly assigned field the
    object names, that object's value (or [null] when it is falsy), and
    under every key the object does not name what [resolved] had.
    ([mergeTitle] is taken to write the [title] of its argument only.) *)
Theorem accumulateMetadata_child_overrides (R : Resolvers)
    (metadataItems : MetadataItems) (resolved child : Obj) :
  writes_only_title R ->
  merge_items metadataItems createDefaultMetadata = Some resolved ->
  exists r,
    accumulateMetadata (metadataItems ++ [(ExportValue (VObj child), VNull)])
      = Fulfilled r /\
    (forall k,
       In k (obj_keys child) -> switch_case k = CaseDirectField ->
       obj_get r k = js_or (obj_get child k) VNull) /\
    (forall k, ~ In k (obj_keys child) -> obj_get r k = obj_get resolved k).
Proof.
  intros Hframe Hitems.
  exists (merge resolved child (stashed_templates resolved)).
  assert (Hlayer : merge_layer resolved (VObj child) VNull
                   = merge resolved child (stashed_templates resolved)).
  { unfold merge_layer. cbn [js_or truthy].
    unfold spread2. cbn [own_props].
    rewrite (obj_assign_fresh (obj_entries child) [])
      by apply obj_entries_NoDup.
    cbn [app obj_assign fold_left]. apply merge_entries. }
  split; [|split].
  - unfold accumulateMetadata. cbn [Promise_resolve].
    rewrite (merge_items_loop _ _
               (merge resolved child (stashed_templates resolved)));
      [reflexivity|].
    rewrite merge_items_app, Hitems.
    cbn [merge_items exported_by]. now rewrite Hlayer.
  - intros k Hin Hcase. now apply merge_direct_field_value.
  - intros k Hnotin. unfold merge.
    apply merge_keys_frame; [assumption|].
    intros key Hkey. left. now intros <-.
Qed.

Lemma accumulateMetadata_child_overrides_witness :
  exists r,
    accumulateMetadata (R := Samples.sample_resolvers)
      ([(ExportValue Samples.sample_metadata, VNull)]
       ++ [(ExportValue (VObj [("description", VStr "child")]), VNull)])
      = Fulfilled r /\
    obj_get r "description" = VStr "child" /\
    obj_get r "title" = VObj [("absolute", VStr "Home"); ("template", VNull)].
Proof.
  destruct (accumulateMetadata_child_overrides Samples.sample_resolvers
              [(ExportValue Samples.sample_metadata, VNull)]
              [("metadataBase", VNull);
               ("title", VObj [("absolute", VStr "Home"); ("template", VNull)]);
               ("description", VStr "static"); ("keywords", VNull);
               ("openGraph", VNull); ("icons", VNull); ("other", VObj [])]
              [("description", VStr "child")]
              sample_writes_only_title eq_refl)
    as [r [Hr [Hnamed Hother]]].
  exists r. split; [exact Hr|]. split.
  - apply (Hnamed "description"); [vm_compute; now left | reflexivity].
  - rewrite (Hother "title"); [reflexivity|].
    vm_compute. intros [H | []]. discriminate H.
Defined.

End AccumulateMore.

(** ** Static metadata files and [collectMetadata] *)

Module CollectFacts.
Import Js Async Metadata Collect Notions Notions2 AccumulateFacts AccumulateMore.


Lemma In_map_Fulfilled {A} (p : Promise A) (l : list A) :
  In p (map Fulfilled l) -> exists a, p = Fulfilled a.
Proof.
  intros H. apply in_map_iff in H as [a [<- _]]. eauto.
Qed.

Section WithLoader.
Context {L : Loader}.
Hypothesis all_lawful : lawful_all L.


Lemma lawful_all_rejected {A} (ps : list (Promise A)) (e : JsError) :
  In (Rejected e) ps ->
  exists e', Promise_all A ps = Rejected e' /\ In (Rejected e') ps.
Proof.
  intros Hin. pose proof (all_lawful A ps) as H.
  destruct (Promise_all A ps) as [vs | e' |].
  - subst ps. apply In_map_Fulfilled in Hin as [a Ha]. discriminate Ha.
  - eauto.
  - destruct H as [H _]. now destruct (H e).
Qed.

Lemma lawful_all_values {A} (ps : list (Promise A)) (vs : list A) :
  Promise_all A ps = Fulfilled vs -> ps = map Fulfilled vs.
Proof.
  intros H. pose proof (all_lawful A ps) as Hlaw. now rewrite H in Hlaw.
Qed.

(** The icons of a type are [undefined] or a list that is not empty. *)
Lemma collectStaticFsBasedIcons_nonempty
    (metadata : option StaticMetadataFiles) (type : IconType)
    (icons : list value) :
  collectStaticFsBasedIcons metadata type = Fulfilled (Some icons) ->
  icons <> [].
Proof.
  unfold collectStaticFsBasedIcons.
  destruct (match metadata with Some files => files_of files type | None => None end)
    as [resolvers|]; [|discriminate].
  destruct (Nat.ltb_spec 0 (length (map load_icon resolvers))) as [Hlen|];
    [|discriminate].
  destruct (Promise_all value (map load_icon resolvers)) as [vs | e |] eqn:Hall;
    cbn; try discriminate.
  intros Heq. inversion Heq; subst vs.
  apply lawful_all_values in Hall.
  intros ->. rewrite Hall in Hlen. simpl in Hlen. lia.
Qed.

Lemma load_icon_file_loading (m : value) :
  load_icon (file_loading m) = Fulfilled (interopDefault m).
Proof. reflexivity. Qed.

Lemma collectStaticFsBasedIcons_rejected
    (files : StaticMetadataFiles) (type : IconType)
    (resolvers : list IconResolver) (iconResolver : IconResolver)
    (e : JsError) :
  files_of files type = Some resolvers ->
  In iconResolver resolvers ->
  load_icon iconResolver = Rejected e ->
  exists e', collectStaticFsBasedIcons (Some files) type = Rejected e'.
Proof.
  intros Hfiles Hin Hload. unfold collectStaticFsBasedIcons. rewrite Hfiles.
  assert (Hrej : In (Rejected e) (map load_icon resolvers)).
  { rewrite <- Hload. now apply in_map. }
  destruct (Nat.ltb_spec 0 (length (map load_icon resolvers))) as [_|Hlen].
  - destruct (lawful_all_rejected _ _ Hrej) as [e' [-> _]]. cbn. eauto.
  - destruct (map load_icon resolvers); [destruct Hrej | simpl in Hlen; lia].
Qed.

End WithLoader.

Lemma sample_lawful_all : lawful_all sample_loader.
Proof.
  intros A ps. cbn [Promise_all sample_loader].
  induction ps as [|p ps IH]; [reflexivity|].
  cbn [all_in_order].
  destruct p as [a | e |], (all_in_order ps) as [l | e' |]; cbn [map In];
    try (now left); try (now right).
  - now rewrite IH.
  - destruct IH as [Hnone Hsome]. split; [|now right].
    intros e [H | H]; [discriminate H | now apply (Hnone e)].
  - subst ps. split; [|now left].
    intros e [H | H]; [discriminate H|].
    apply In_map_Fulfilled in H as [a Ha]. discriminate Ha.
  - destruct IH as [Hnone Hsome]. split; [|now left].
    intros e [H | H]; [discriminate H | now apply (Hnone e)].
Qed.

(** X10.  What [resolveStaticMetadata] is fulfilled with is [null], when
    the components have no metadata files, or an object whose only key is
    [icons]; the properties of [icons] are [icon] and [apple] at most, each
    an array that is not empty: a type without files, or with an empty list
    of files, gets no property. *)
Theorem resolveStaticMetadata_shape (L : Loader)
    (components : ComponentsType) (v : value) :
  lawful_all L ->
  resolveStaticMetadata components = Fulfilled v ->
  (metadata components = None /\ v = VNull) \/
  exists icons,
    v = VObj [("icons", VObj icons)] /\
    forall k x,
      In (k, x) icons ->
      (k = "icon" \/ k = "apple") /\ exists l, x = VArr l /\ l <> [].
Proof.
  intros Hlaw. unfold resolveStaticMetadata.
  destruct (metadata components) as [files|].
  2: { intros H. inversion H. now left. }
  destruct (Promise_all _ _) as [results | e |] eqn:Hall; cbn;
    try discriminate.
  intros H. inversion H; subst v. clear H. right.
  apply (lawful_all_values Hlaw) in Hall.
  destruct results as [|r1 [|r2 [|r3 results]]]; try discriminate Hall.
  cbn in Hall. inversion Hall as [[Hicon Happle]]. cbn [nth].
  eexists. split; [reflexivity|].
  intros k x Hin. unfold icons_object in Hin.
  destruct r1 as [l1|], r2 as [l2|]; cbn in Hin.
  - destruct Hin as [Heq | [Heq | []]]; inversion Heq; subst.
    + split; [now left|]. exists l1. split; [reflexivity|].
      exact (collectStaticFsBasedIcons_nonempty Hlaw _ _ _ Hicon).
    + split; [now right|]. exists l2. split; [reflexivity|].
      exact (collectStaticFsBasedIcons_nonempty Hlaw _ _ _ Happle).
  - destruct Hin as [Heq | []]; inversion Heq; subst.
    split; [now left|]. exists l1. split; [reflexivity|].
    exact (collectStaticFsBasedIcons_nonempty Hlaw _ _ _ Hicon).
  - destruct Hin as [Heq | []]; inversion Heq; subst.
    split; [now right|]. exists l2. split; [reflexivity|].
    exact (collectStaticFsBasedIcons_nonempty Hlaw _ _ _ Happle).
  - destruct Hin.
Qed.

Lemma resolveStaticMetadata_shape_witness :
  exists icons,
    resolveStaticMetadata (L := sample_loader)
      sample_components = Fulfilled (VObj [("icons", VObj icons)]) /\
    obj_has icons "icon" = true /\ obj_has icons "apple" = false.
Proof.
  destruct (resolveStaticMetadata_shape sample_loader
              sample_components
              (VObj [("icons",
                      VObj [("icon",
                             VArr [VObj [("url", VStr "/icon.png");
                                         ("sizes", VStr "32x32")]])])])
              sample_lawful_all eq_refl)
    as [[Hnone _] | [icons [Heq _]]].
  - discriminate Hnone.
  - inversion Heq; subst icons. eexists. split; [reflexivity|].
    split; reflexivity.
Defined.



(** X12.  One icon file that fails to load -- its loader throws, or
    returns a promise that is rejected -- makes [resolveStaticMetadata]
    rejected, whatever the other files do. *)
Theorem resolveStaticMetadata_failing_file (L : Loader)
    (components : ComponentsType) (files : StaticMetadataFiles)
    (type : IconType) (resolvers : list IconResolver)
    (iconResolver : IconResolver) (e : JsError) :
  lawful_all L ->
  metadata components = Some files ->
  files_of files type = Some resolvers ->
  In iconResolver resolvers ->
  load_icon iconResolver = Rejected e ->
  exists e', resolveStaticMetadata components = Rejected e'.
Proof.
  intros Hlaw Hmeta Hfiles Hin Hload.
  unfold resolveStaticMetadata. rewrite Hmeta.
  destruct (collectStaticFsBasedIcons_rejected Hlaw files type resolvers
              iconResolver e Hfiles Hin Hload) as [e1 He1].
  assert (Hrej : In (Rejected e1)
                   [collectStaticFsBasedIcons (Some files) type_icon;
                    collectStaticFsBasedIcons (Some files) type_apple]).
  { destruct type; rewrite <- He1; [now left | right; now left]. }
  destruct (lawful_all_rejected Hlaw _ _ Hrej) as [e' [-> _]].
  cbn. eauto.
Qed.

Lemma resolveStaticMetadata_failing_file_witness :
  exists e',
    resolveStaticMetadata (L := sample_loader)
      sample_broken_components = Rejected e'.
Proof.
  apply (resolveStaticMetadata_failing_file
           sample_loader sample_broken_components
           {| icon := Some [sample_icon_file "/icon.png"; sample_broken_file];
              apple := None |}
           type_icon
           [sample_icon_file "/icon.png"; sample_broken_file]
           sample_broken_file (MkError "Cannot find module './icon.png'")).
  - apply sample_lawful_all.
  - reflexivity.
  - reflexivity.
  - right. now left.
  - reflexivity.
Defined.

(** X13.  [collectMetadata] either is fulfilled, and has pushed exactly one
    pair at the end of the array, the pair holding the static-files metadata
    of the tree in second place, or is not fulfilled, and has left the array
    as it was. *)
Theorem collectMetadata_pushes_one_pair (R : Resolvers) (L : Loader)
    (loaderTree : LoaderTree) (props : value) (array : MetadataItems) :
  let result := collectMetadata loaderTree props array in
  (snd result = Fulfilled tt /\
   exists metadataExport staticFilesMetadata,
     resolveStaticMetadata (loaderTree_components loaderTree)
       = Fulfilled staticFilesMetadata /\
     fst result = array ++ [(metadataExport, staticFilesMetadata)]) \/
  (snd result <> Fulfilled tt /\ fst result = array).
Proof.
  cbv zeta. unfold collectMetadata, await_or_stop.
  destruct (getLayoutOrPageModule loaderTree) as [module | e |];
    [|right; split; [discriminate | reflexivity]..].
  destruct (resolveStaticMetadata (loaderTree_components loaderTree))
    as [static | e |];
    [|right; split; [discriminate | reflexivity]..].
  destruct (match module with
            | Some m => getDefinedMetadata m props
            | None => Fulfilled (ExportValue VNull)
            end) as [metadataExport | e |];
    [|right; split; [discriminate | reflexivity]..].
  left. split; [reflexivity|]. eauto.
Qed.

(** X14.  For a tree without a layout or page module, or whose module is a
    client reference, and without metadata files, [collectMetadata] pushes
    the pair [[null, null]], and [accumulateMetadata] gives for the array
    with that pair what it gives for the array before. *)
Theorem collectMetadata_empty_layer (R : Resolvers) (L : Loader)
    (loaderTree : LoaderTree) (props : value) (array : MetadataItems) :
  getLayoutOrPageModule loaderTree = Fulfilled None \/
  (exists m, getLayoutOrPageModule loaderTree = Fulfilled (Some m) /\
             isClientReference m = true) ->
  metadata (loaderTree_components loaderTree) = None ->
  collectMetadata loaderTree props array
    = (array ++ [(ExportValue VNull, VNull)], Fulfilled tt) /\
  accumulateMetadata (fst (collectMetadata loaderTree props array))
    = accumulateMetadata array.
Proof.
  intros Hmodule Hfiles.
  assert (Hcollect : collectMetadata loaderTree props array
                     = (array ++ [(ExportValue VNull, VNull)], Fulfilled tt)).
  { unfold collectMetadata, await_or_stop, resolveStaticMetadata.
    rewrite Hfiles.
    destruct Hmodule as [-> | [m [-> Hclient]]]; [reflexivity|].
    unfold getDefinedMetadata. now rewrite Hclient. }
  split; [exact Hcollect|].
  rewrite Hcollect. cbn [fst]. unfold accumulateMetadata.
  rewrite accumulate_loop_skip by reflexivity.
  now rewrite app_nil_r.
Qed.

Lemma collectMetadata_empty_layer_witness :
  collectMetadata (R := Samples.sample_resolvers) (L := sample_loader)
    (Some Samples.sample_client_module, {| metadata := None |})
    VUndefined Samples.sample_items
  = (Samples.sample_items ++ [(ExportValue VNull, VNull)], Fulfilled tt).
Proof.
  apply (collectMetadata_empty_layer Samples.sample_resolvers sample_loader
           (Some Samples.sample_client_module, {| metadata := None |})
           VUndefined Samples.sample_items).
  - right. exists Samples.sample_client_module. split; reflexivity.
  - reflexivity.
Defined.

(** X15.  For a module that is no client reference and whose [metadata]
    and [generateMetadata] are both truthy, [collectMetadata] is rejected
    with the error of [getDefinedMetadata] and pushes nothing -- once the
    static-files metadata of the tree is resolved, which comes first. *)
Theorem collectMetadata_both_exports (R : Resolvers) (L : Loader)
    (loaderTree : LoaderTree) (props : value) (array : MetadataItems)
    (m : Module) (staticFilesMetadata : value) :
  getLayoutOrPageModule loaderTree = Fulfilled (Some m) ->
  resolveStaticMetadata (loaderTree_components loaderTree)
    = Fulfilled staticFilesMetadata ->
  isClientReference m = false ->
  both_truthy m = true ->
  collectMetadata loaderTree props array
    = (array, Rejected (MkError (both_exports_message (mod_get m "path")))).
Proof.
  intros Hmodule Hstatic Hclient Hboth.
  unfold collectMetadata, await_or_stop. rewrite Hmodule, Hstatic.
  unfold getDefinedMetadata. rewrite Hclient.
  unfold both_truthy in Hboth. now rewrite Hboth.
Qed.

Lemma collectMetadata_both_exports_witness :
  exists message,
    collectMetadata (R := Samples.sample_resolvers) (L := sample_loader)
      (Some Samples.sample_both_module, sample_components)
      VUndefined Samples.sample_items
    = (Samples.sample_items, Rejected (MkError message)).
Proof.
  eexists.
  eapply (collectMetadata_both_exports Samples.sample_resolvers sample_loader
           (Some Samples.sample_both_module, sample_components)
           VUndefined Samples.sample_items Samples.sample_both_module);
    reflexivity.
Defined.

End CollectFacts.

(** ** Strings *)

Module StringFacts.
Import Text.

Lemma append_nil (b : string) : EmptyString +:+ b = b.
Proof. reflexivity. Qed.

Lemma append_cons (x : ascii) (a b : string) :
  String x a +:+ b = String x (a +:+ b).
Proof. reflexivity. Qed.

Lemma str_append_assoc (a b c : string) :
  (a +:+ b) +:+ c = a +:+ (b +:+ c).
Proof.
  induction a as [|x a IH]; rewrite ?append_nil, ?append_cons;
    [reflexivity | now f_equal].
Qed.

Lemma str_append_nil_r (a : string) : a +:+ EmptyString = a.
Proof.
  induction a as [|x a IH]; rewrite ?append_nil, ?append_cons;
    [reflexivity | now f_equal].
Qed.

Lemma str_length_append (a b : string) :
  String.length (a +:+ b) = String.length a + String.length b.
Proof.
  induction a as [|x a IH]; rewrite ?append_nil, ?append_cons; simpl;
    [reflexivity | now rewrite IH].
Qed.

Lemma strip_prefix_app (p s : string) : strip_prefix p (p +:+ s) = Some s.
Proof.
  induction p as [|x p IH]; rewrite ?append_nil, ?append_cons; simpl;
    [reflexivity|].
  now rewrite Ascii.eqb_refl.
Qed.

Lemma strip_prefix_prefix (p s rest : string) :
  strip_prefix p s = Some rest -> String.prefix p s = true.
Proof.
  revert s. induction p as [|x p IH]; intros s; simpl.
  - now destruct s.
  - destruct s as [|y s]; [discriminate|].
    destruct (Ascii.eqb_spec x y) as [->|Hne]; [|discriminate].
    intros H.
    change (String.prefix (String y p) (String y s))
      with (if ascii_dec y y then String.prefix p s else false).
    destruct (ascii_dec y y); [now apply IH | contradiction].
Qed.

Lemma substring_app (h x : string) :
  String.substring 0 (String.length h) (h +:+ x) = h.
Proof.
  induction h as [|c h IH]; rewrite ?append_nil, ?append_cons; simpl.
  - now destruct x.
  - now f_equal.
Qed.

(** The text between a position and the position [h] further on is [h]. *)
Lemma consumed_app (h x : string) : consumed (h +:+ x) x = h.
Proof.
  unfold consumed. rewrite str_length_append.
  replace (String.length h + String.length x - String.length x)
    with (String.length h) by lia.
  apply substring_app.
Qed.

End StringFacts.

(** ** More on the diagnostic formatter *)

Module DiagnosticMore.
Import Async Text Diagnostics Notions Notions2 RegexFacts DiagnosticFacts
       StringFacts.

(** A pattern anchored with [^] matches at the start of the text only. *)
Lemma search_anchored_tail (total : nat) (r : regex) (s : string) :
  String.length s < total -> search total (Seq Bol r) s = None.
Proof.
  induction s as [|c s IH]; intros Hlen; cbn [search matches].
  - destruct (Nat.eqb_spec (String.length EmptyString) total) as [Heq|];
      [simpl in *; lia | reflexivity].
  - destruct (Nat.eqb_spec (String.length (String c s)) total) as [Heq|];
      [simpl in *; lia|].
    cbn [flat_map]. apply IH. simpl in Hlen. lia.
Qed.

Lemma str_match_anchored_literal (str lit : string) (r : regex)
    (m : MatchResult) :
  str_match str (Seq Bol (Seq (Lit lit) r)) = Some m ->
  startsWith str lit = true.
Proof.
  unfold str_match, startsWith.
  destruct (strip_prefix lit str) as [rest|] eqn:Hstrip;
    [intros _; now apply strip_prefix_prefix with rest|].
  destruct str as [|c str]; cbn [search matches];
    rewrite Nat.eqb_refl; cbn [flat_map fst snd app]; rewrite Hstrip;
    cbn [flat_map app]; [discriminate|].
  rewrite search_anchored_tail by (simpl; lia). discriminate.
Qed.

Section WithEnvironment.
Context {E : Environment}.

Lemma link_text_not_empty (diagnostic : Diagnostic) (reason : string) :
  getFormattedLinkDiagnosticMessageText diagnostic = Some reason ->
  is_truthy_string (Some reason) = true.
Proof.
  unfold getFormattedLinkDiagnosticMessageText.
  destruct (messageText diagnostic) as [message|]; [|discriminate].
  destruct (code diagnostic =? 2322)%Z; [|discriminate].
  destruct (match_or _ _); [|discriminate].
  intros H. inversion H. reflexivity.
Qed.

Lemma sourceFilepath_of_file_comment (diagnostic : Diagnostic) :
  sourceFilepath_of diagnostic <> EmptyString ->
  exists f,
    file diagnostic = Some f /\
    startsWith (trim (text f)) "// File: " = true.
Proof.
  unfold sourceFilepath_of.
  destruct (file diagnostic) as [f|]; [|congruence].
  destruct (str_match (trim (text f)) re_file_comment) as [m|] eqn:Hm;
    [|congruence].
  intros _. exists f. split; [reflexivity|].
  exact (str_match_anchored_literal _ _ _ _ Hm).
Qed.

(** Every arm of the [switch] of [processNext] appends to [main]. *)
Lemma process_item_code_appends (type : string) (indent : nat)
    (item : DiagnosticMessageChain) (main : string) :
  exists suffix,
    process_item_code type indent item main = Normal (main +:+ suffix).
Proof.
  assert (Hsame : exists suffix, @Normal string main = Normal (main +:+ suffix)).
  { exists EmptyString. now rewrite str_append_nil_r. }
  unfold process_item_code.
  destruct (chain_code item =? 2200)%Z.
  { unfold case_2200. destruct (str_match _ _); [eauto | exact Hsame]. }
  destruct (chain_code item =? 2322)%Z.
  { unfold case_2322.
    destruct (str_match _ re_not_assignable) as [types|] eqn:Hm;
      [|exact Hsame].
    destruct (is_string _ _ || is_string _ _).
    - rewrite str_append_assoc. eauto.
    - destruct (str_match_group _ _ _ 2 Hm) as [expected ->];
        [cbn; intuition|].
      rewrite str_append_assoc. eauto. }
  destruct (chain_code item =? 2326)%Z.
  { unfold case_2326. eauto. }
  destruct (chain_code item =? 2739)%Z.
  { unfold case_2739. destruct (str_match _ _); [|exact Hsame].
    destruct (is_string _ _ || is_string _ _); [eauto | exact Hsame]. }
  destruct (chain_code item =? 2559)%Z.
  { unfold case_2559. destruct (str_match _ _); [eauto | exact Hsame]. }
  destruct (chain_code item =? 2741)%Z; [|exact Hsame].
  unfold case_2741. destruct (str_match _ re_missing_in_page_props); [eauto|].
  destruct (str_match _ _); [eauto | exact Hsame].
Qed.

Lemma process_item_appends :
  forall (item : DiagnosticMessageChain) (type : string) (indent : nat)
         (main : string),
    exists suffix, process_item type indent item main = Normal (main +:+ suffix).
Proof.
  fix IH 1. intros [t c k next] type indent main.
  cbn [process_item].
  destruct (process_item_code_appends type indent (MkChain t c k next) main)
    as [suffix1 ->].
  destruct next as [items|]; [|eauto].
  generalize suffix1. clear suffix1.
  induction items as [|i rest IHrest]; intros suffix1; [eauto|].
  destruct (IH i type (S indent) (main +:+ suffix1)) as [suffix2 ->].
  rewrite str_append_assoc. apply IHrest.
Qed.

Lemma processNext_appends (type : string) (indent : nat)
    (next : option (list DiagnosticMessageChain)) (main : string) :
  exists suffix, processNext type indent next main = Normal (main +:+ suffix).
Proof.
  unfold processNext. destruct next as [items|].
  2: { exists EmptyString. now rewrite str_append_nil_r. }
  assert (Hgen : forall suffix0,
             exists suffix,
               fold_left
                 (fun acc item =>
                    match acc with
                    | Throw e => Throw e
                    | Normal main => process_item type indent item main
                    end) items (Normal (main +:+ suffix0))
               = Normal (main +:+ suffix)).
  { induction items as [|i rest IH]; intros suffix0; simpl; [eauto|].
    destruct (process_item_appends i type indent (main +:+ suffix0))
      as [suffix1 ->].
    rewrite str_append_assoc. apply IH. }
  destruct (Hgen EmptyString) as [suffix Hsuffix].
  rewrite str_append_nil_r in Hsuffix. eauto.
Qed.

End WithEnvironment.

(** X16.  [getFormattedDiagnostic] is fulfilled for every diagnostic: the
    one place that could throw, [types[2].replace(...)] on a capture, is
    reached only with the capture defined. *)
Theorem getFormattedDiagnostic_is_fulfilled (E : Environment)
    (ts : TypeScript) (baseDir distDir : string) (diagnostic : Diagnostic)
    (isAppDirEnabled : option bool) :
  exists text,
    getFormattedDiagnostic ts baseDir distDir diagnostic isAppDirEnabled
      = Fulfilled text.
Proof.
  unfold getFormattedDiagnostic.
  destruct (base_message_normal ts baseDir distDir diagnostic isAppDirEnabled)
    as [message ->].
  destruct (file diagnostic) as [f|]; [|eauto].
  destruct (negb _); eauto.
Qed.

(** X17.  A message the link patterns rewrite is the reason also for a
    diagnostic of the types directory: the layout and page patterns are not
    consulted. *)
Theorem link_reason_takes_precedence (E : Environment)
    (ts : TypeScript) (baseDir distDir : string) (diagnostic : Diagnostic)
    (isAppDirEnabled : option bool) (reason : string) :
  getFormattedLinkDiagnosticMessageText diagnostic = Some reason ->
  base_message ts baseDir distDir diagnostic isAppDirEnabled
    = Normal (category_label (category diagnostic) +:+ reason +:+ nl).
Proof.
  intros Hlink. pose proof (link_text_not_empty _ _ Hlink) as Htruthy.
  unfold base_message. rewrite Hlink, Htruthy. cbn [negb andb].
  unfold string_or. cbn [is_truthy_string] in Htruthy.
  destruct (String.eqb reason EmptyString); [discriminate | reflexivity].
Qed.

Lemma link_reason_takes_precedence_witness :
  base_message (E := Samples.sample_environment) Samples.sample_ts
    "/repo" ".next"
    {| category := 1; code := 2322; file := Some Samples.sample_types_file;
       start := None;
       messageText :=
         inl (route_literal_message "/blog" "Route<string> | URL") |}
    (Some true)
  = Normal (category_label (E := Samples.sample_environment) 1 +:+
            link_text (E := Samples.sample_environment) (Some "/blog") +:+ nl).
Proof.
  apply (link_reason_takes_precedence Samples.sample_environment).
  reflexivity.
Defined.

(** X18.  The file name shown in front of a diagnostic always starts with
    a dot: [./] is put in front of a name that does not. *)
Theorem shown_fileName_starts_with_dot (E : Environment) (baseDir : string)
    (f : SourceFile) :
  startsWith (shown_fileName baseDir f) "." = true.
Proof.
  unfold shown_fileName.
  destruct (startsWith (path_posix_normalize _) ".") eqn:Hdot; cbn [negb];
    [exact Hdot | reflexivity].
Qed.

(** X19.  The layout and page rewriter gives a message only for a
    diagnostic whose message is a chain with code 2344 or 2345 and whose
    file, trimmed, starts with the comment [// File: ]. *)
Theorem layout_text_only_for_generated_files (E : Environment)
    (baseDir : string) (diagnostic : Diagnostic) (reason : string) :
  getFormattedLayoutAndPageDiagnosticMessageText baseDir diagnostic
    = Normal (Some reason) ->
  exists chain f,
    messageText diagnostic = inr chain /\
    (chain_code chain = 2344 \/ chain_code chain = 2345)%Z /\
    file diagnostic = Some f /\
    startsWith (trim (text f)) "// File: " = true.
Proof.
  unfold getFormattedLayoutAndPageDiagnosticMessageText.
  destruct (messageText diagnostic) as [s | chain]; [discriminate|].
  destruct (String.eqb_spec (sourceFilepath_of diagnostic) EmptyString)
    as [|Hpath]; cbn [negb]; [discriminate|].
  destruct (sourceFilepath_of_file_comment diagnostic Hpath) as [f [Hf Hstart]].
  intros Hreason. exists chain, f.
  split; [reflexivity|]. split; [|now split].
  destruct (Z.eqb_spec (chain_code chain) 2344); [now left|].
  destruct (Z.eqb_spec (chain_code chain) 2345); [now right | discriminate].
Qed.

Lemma layout_text_only_for_generated_files_witness :
  exists chain f,
    messageText Samples.sample_layout_diagnostic = inr chain /\
    (chain_code chain = 2344 \/ chain_code chain = 2345)%Z /\
    file Samples.sample_layout_diagnostic = Some f /\
    startsWith (trim (text f)) "// File: " = true.
Proof.
  eapply (layout_text_only_for_generated_files Samples.sample_environment
            "/repo" Samples.sample_layout_diagnostic).
  vm_compute. reflexivity.
Defined.

(** X20.  [processNext] only adds to [main]: what it leaves is [main]
    followed by the lines for the items of the chain, and it does not
    throw. *)
Theorem processNext_only_appends (E : Environment) (type : string)
    (indent : nat) (next : option (list DiagnosticMessageChain))
    (main : string) :
  exists suffix, processNext type indent next main = Normal (main +:+ suffix).
Proof. apply processNext_appends. Qed.

End DiagnosticMore.

(** ** The link rewriter on route literals *)

Module LinkFacts.
Import Async Text Diagnostics Notions Notions2 StringFacts.

Lemma one_line_cons (c : ascii) (h : string) :
  one_line (String c h) -> is_line_terminator c = false /\ one_line h.
Proof.
  intros H. split.
  - apply H. now left.
  - intros c' Hin. apply H. now right.
Qed.

(** The positions [.+] can stop at, from the last one of the text back:
    past a text [h] of one line they are those past [x], then the one in
    front of [x], then those inside [h]. *)
Lemma dot_plus_app (h x : string) :
  one_line h ->
  exists more, dot_plus (h +:+ x) ++ [h +:+ x] = dot_plus x ++ x :: more.
Proof.
  induction h as [|c h IH]; intros Hline.
  - exists []. now rewrite append_nil.
  - apply one_line_cons in Hline as [Hc Hline].
    destruct (IH Hline) as [more Hmore].
    rewrite append_cons. cbn [dot_plus]. rewrite Hc, Hmore.
    exists (more ++ [String c (h +:+ x)]).
    now rewrite <- app_assoc.
Qed.

Lemma dot_plus_nonempty_app (h x : string) :
  h <> EmptyString -> one_line h ->
  exists more, dot_plus (h +:+ x) = dot_plus x ++ x :: more.
Proof.
  destruct h as [|c h]; [congruence|]. intros _ Hline.
  apply one_line_cons in Hline as [Hc Hline].
  rewrite append_cons. cbn [dot_plus]. rewrite Hc.
  now apply dot_plus_app.
Qed.

Lemma search_first (total : nat) (r : regex) (s rest : string)
    (caps : Captures) (others : list (string * Captures)) :
  matches total r s [] = (rest, caps) :: others ->
  search total r s = Some {| matched := consumed s rest; captures := caps |}.
Proof. intros H. destruct s; cbn [search]; now rewrite H. Qed.

Lemma group_then_literal_matches (total n : nat) (lit s : string)
    (caps : Captures) :
  matches total (Seq (Group n DotPlus) (Lit lit)) s caps
    = flat_map
        (fun rest =>
           match strip_prefix lit rest with
           | Some after => [(after, (n, consumed s rest) :: caps)]
           | None => []
           end)
        (dot_plus s).
Proof.
  cbn [matches]. generalize (dot_plus s) as positions.
  induction positions as [|rest positions IH]; [reflexivity|].
  cbn [map flat_map fst snd] in IH |- *. rewrite IH.
  now destruct (strip_prefix lit rest).
Qed.

(** [(.+)] followed by literal text: the capture ends at the last place
    where the literal text follows. *)
Lemma group_then_literal (total n : nat) (lit s : string) (caps : Captures)
    (later : list string) (here after : string) (earlier : list string) :
  dot_plus s = later ++ here :: earlier ->
  forallb (fun rest =>
             match strip_prefix lit rest with Some _ => false | None => true end)
    later = true ->
  strip_prefix lit here = Some after ->
  exists others,
    matches total (Seq (Group n DotPlus) (Lit lit)) s caps
      = (after, (n, consumed s here) :: caps) :: others.
Proof.
  intros Hdot Hlater Hhere.
  rewrite group_then_literal_matches, Hdot, flat_map_app.
  cbn [flat_map]. rewrite Hhere. clear Hdot.
  induction later as [|r later IH]; [cbn [flat_map app]; eauto|].
  cbn [forallb] in Hlater. apply andb_true_iff in Hlater as [Hr Hlater].
  cbn [flat_map]. destruct (strip_prefix lit r); [discriminate|].
  cbn [app]. now apply IH.
Qed.

(** X21.  For every href of one line that is not empty, the message
    [Type '"href"' is not assignable to type 'Route<string> | URL'.] with
    code 2322 is rewritten, and the text names exactly that href, whatever
    characters it holds. *)
Theorem link_text_names_the_href (E : Environment) (href : string)
    (category : Z) (file : option SourceFile) (start : option Z) :
  href <> EmptyString ->
  one_line href ->
  getFormattedLinkDiagnosticMessageText
    {| category := category; code := 2322; file := file; start := start;
       messageText :=
         inl (route_literal_message href "Route<string> | URL") |}
  = Some (link_text (Some href)).
Proof.
  intros Hne Hline.
  set (lit := dq +:+ "' is not assignable to type 'Route<string> ").
  set (tail := "| URL'.").
  assert (Hmsg : route_literal_message href "Route<string> | URL"
                 = ("Type '" +:+ dq) +:+ (href +:+ (lit +:+ tail))).
  { unfold route_literal_message, quoted.
    rewrite !str_append_assoc. reflexivity. }
  unfold getFormattedLinkDiagnosticMessageText.
  cbn [messageText code]. rewrite Hmsg. cbn [Z.eqb Pos.eqb].
  destruct (dot_plus_nonempty_app href (lit +:+ tail) Hne Hline)
    as [earlier Hdot].
  destruct (group_then_literal
              (String.length (("Type '" +:+ dq) +:+ (href +:+ (lit +:+ tail))))
              1 lit (href +:+ (lit +:+ tail)) []
              (dot_plus (lit +:+ tail)) (lit +:+ tail) tail earlier Hdot)
    as [others Hmatches].
  { vm_compute. reflexivity. }
  { apply strip_prefix_app. }
  assert (Hsearch :
    exists full,
      str_match (("Type '" +:+ dq) +:+ (href +:+ (lit +:+ tail)))
        re_link_route_url
      = Some {| matched := full; captures := [(1, href)] |}).
  { unfold str_match, re_link_route_url.
    set (total := String.length _).
    assert (Hfirst :
      exists others',
        matches total
          (Alt (Seq (Lit ("Type '" +:+ dq)) (Seq (Group 1 DotPlus) (Lit lit)))
               (Lit " URL'."))
          (("Type '" +:+ dq) +:+ (href +:+ (lit +:+ tail))) []
        = (tail, [(1, href)]) :: others').
    { cbn [matches]. rewrite strip_prefix_app. cbn [flat_map fst snd].
      pose proof Hmatches as Hm. cbn [matches] in Hm. rewrite Hm.
      rewrite consumed_app. cbn [app]. eauto. }
    destruct Hfirst as [others' Hfirst].
    eexists. exact (search_first _ _ _ _ _ _ Hfirst). }
  destruct Hsearch as [full ->].
  reflexivity.
Qed.

Lemma link_text_names_the_href_witness :
  getFormattedLinkDiagnosticMessageText (E := Samples.sample_environment)
    {| category := 1; code := 2322; file := None; start := None;
       messageText :=
         inl (route_literal_message "/a URL'. b" "Route<string> | URL") |}
  = Some (link_text (E := Samples.sample_environment) (Some "/a URL'. b")).
Proof.
  apply (link_text_names_the_href Samples.sample_environment "/a URL'. b").
  - discriminate.
  - intros c Hin. vm_compute in Hin.
    repeat (destruct Hin as [<- | Hin]; [reflexivity|]). destruct Hin.
Defined.

End LinkFacts.

(** ** More on [getDefinedMetadata] *)

Module DefinedMetadataMore.
Import Js Async Metadata Notions Notions2 DefinedMetadataFacts.

(** X22.  [getDefinedMetadata] settles at once, and a value it is fulfilled
    with is [null] or truthy: a falsy [metadata] export ([undefined], [0],
    the empty string, [false]) is handed on as [null]. *)
Theorem getDefinedMetadata_normalises_falsy (R : Resolvers) (module : Module)
    (props : value) :
  getDefinedMetadata module props <> Pending /\
  forall v,
    getDefinedMetadata module props = Fulfilled (ExportValue v) ->
    v = VNull \/ truthy v = true.
Proof.
  unfold getDefinedMetadata.
  destruct (isClientReference module).
  { split; [discriminate|]. intros v H. inversion H. now left. }
  destruct (prop_truthy (mod_get module "metadata")
            && prop_truthy (mod_get module "generateMetadata")).
  { split; discriminate. }
  split; [discriminate|].
  destruct (prop_truthy (mod_get module "generateMetadata")); [discriminate|].
  destruct (mod_get module "metadata") as [v0 | text f]; [|discriminate].
  intros v H. inversion H. unfold js_or.
  destruct (truthy v0) eqn:Hv0; [now right | now left].
Qed.

(** X23.  For a module that is no client reference, whose [metadata] is
    falsy and whose [generateMetadata] is a function, the export is a
    resolver, and [accumulateMetadata] on an item with it calls
    [generateMetadata] with [props] and the promise of the metadata
    accumulated so far: for the first layer, of [createDefaultMetadata()]. *)
Theorem generateMetadata_receives_props_and_parent (R : Resolvers)
    (module : Module) (props : value) (text : string)
    (generateMetadata : list Arg -> Completion (Returned value))
    (static : value) :
  isClientReference module = false ->
  prop_truthy (mod_get module "metadata") = false ->
  mod_get module "generateMetadata" = PropFunction text generateMetadata ->
  exists f,
    getDefinedMetadata module props = Fulfilled (ExportFunction f) /\
    (forall parent,
       f parent = generateMetadata [ArgValue props; ArgPromise parent]) /\
    accumulateMetadata [(ExportFunction f, static)]
      = async_return
          match
            generateMetadata
              [ArgValue props; ArgPromise (Fulfilled createDefaultMetadata)]
          with
          | Normal layer =>
              Normal (chain_layer (Fulfilled createDefaultMetadata)
                        (Promise_resolve layer) static)
          | Throw e => Throw e
          end.
Proof.
  intros Hclient Hmetadata Hgenerate.
  unfold getDefinedMetadata. rewrite Hclient, Hmetadata, Hgenerate.
  cbn [andb prop_truthy prop_call].
  eexists. split; [reflexivity|]. split; [reflexivity|].
  unfold accumulateMetadata. cbn [accumulate_loop Promise_resolve].
  now destruct (generateMetadata _).
Qed.

Lemma generateMetadata_receives_props_and_parent_witness :
  exists f,
    getDefinedMetadata (R := Samples.sample_resolvers)
      [("generateMetadata",
        PropFunction "async function generateMetadata"
          Samples.sample_generateMetadata)]
      (VObj [("params", VObj [])])
    = Fulfilled (ExportFunction f) /\
    accumulateMetadata (R := Samples.sample_resolvers)
      [(ExportFunction f, VNull)]
    = Fulfilled
        [("metadataBase", VNull); ("title", VNull);
         ("description", VStr "null!"); ("keywords", VNull);
         ("openGraph", VNull); ("icons", VNull); ("other", VObj [])].
Proof.
  destruct (generateMetadata_receives_props_and_parent
              Samples.sample_resolvers
              [("generateMetadata",
                PropFunction "async function generateMetadata"
                  Samples.sample_generateMetadata)]
              (VObj [("params", VObj [])])
              "async function generateMetadata"
              Samples.sample_generateMetadata VNull
              eq_refl eq_refl eq_refl)
    as [f [Hdefined [_ Haccumulate]]].
  exists f. split; [exact Hdefined|].
  rewrite Haccumulate. vm_compute. reflexivity.
Defined.

(** X24.  A [generateMetadata] export that is truthy but no function (with
    a falsy [metadata]) passes [getDefinedMetadata]; the error comes when
    [accumulateMetadata] calls the resolver: it is rejected with a
    [TypeError], whatever the static files and the later items. *)
Theorem generateMetadata_not_a_function (R : Resolvers)
    (module : Module) (props v static : value) (rest : MetadataItems) :
  isClientReference module = false ->
  prop_truthy (mod_get module "metadata") = false ->
  mod_get module "generateMetadata" = PropValue v ->
  truthy v = true ->
  exists f message,
    getDefinedMetadata module props = Fulfilled (ExportFunction f) /\
    accumulateMetadata ((ExportFunction f, static) :: rest)
      = Rejected (MkTypeError message).
Proof.
  intros Hclient Hmetadata Hgenerate Htruthy.
  unfold getDefinedMetadata. rewrite Hclient, Hmetadata, Hgenerate.
  cbn [andb prop_truthy prop_call]. rewrite Htruthy.
  eexists. eexists. split; reflexivity.
Qed.

Lemma generateMetadata_not_a_function_witness :
  exists f message,
    getDefinedMetadata (R := Samples.sample_resolvers)
      [("generateMetadata", PropValue (VObj [("title", VStr "Home")]))]
      VUndefined
    = Fulfilled (ExportFunction f) /\
    accumulateMetadata (R := Samples.sample_resolvers)
      ((ExportFunction f, VNull) :: Samples.sample_items)
    = Rejected (MkTypeError message).
Proof.
  apply (generateMetadata_not_a_function Samples.sample_resolvers
           [("generateMetadata", PropValue (VObj [("title", VStr "Home")]))]
           VUndefined (VObj [("title", VStr "Home")]) VNull
           Samples.sample_items); reflexivity.
Defined.

End DefinedMetadataMore.

Module LinkGuard.
Import Async Text Diagnostics Notions Notions2 DiagnosticFacts.

Lemma link_text_only_for_2322_strings_witness :
  code {| category := 1; code := 2322; file := None; start := None;
          messageText :=
            inl (route_literal_message "/blog" "URL | Route<string>") |}
    = 2322%Z /\
  exists message,
    messageText
      {| category := 1; code := 2322; file := None; start := None;
         messageText :=
           inl (route_literal_message "/blog" "URL | Route<string>") |}
    = inl message.
Proof.
  apply (link_text_only_for_2322_strings Samples.sample_environment _
           (link_text (E := Samples.sample_environment) (Some "/blog"))).
  reflexivity.
Defined.

End LinkGuard.
